(** * Date tasks of js-assignments (task/03-date-tasks.js)

    A shallow embedding of the five functions of the module
    ([parseDataFromRfc2822], [parseDataFromIso8601], [isLeapYear],
    [timeSpanToString], [angleBetweenClockHands]) and of the part of the
    JavaScript host they call: Number arithmetic (IEEE 754 binary64, here
    Rocq's primitive floats), the Date time-value algorithms of ECMA-262 and
    the [Date] constructor. *)

From Stdlib Require Import ZArith Bool List String Ascii Floats Lia.
From Stdlib Require Import DecimalString.
Import ListNotations.

Local Open Scope Z_scope.

(** ** JavaScript Numbers

    A Number is a binary64 value.  The operators [+ - * /], [Math.abs] and
    the comparisons are the primitive float operations; the operations that
    primitive floats lack ([%], [Math.floor], conversions from and to
    integers) are computed on the exact value [(-1)^s * m * 2^e] that
    [Prim2SF] exposes. *)
Module Number.

Definition NaN : float := nan.

(** The Number nearest to an integer (ties to even); exact below [2^53]. *)
Definition ofZ (z : Z) : float :=
  SF2Prim (binary_normalize prec emax z 0 false).

Definition signed (s : bool) (z : Z) : Z := if s then - z else z.

(** [Some z] when the Number is the integer [z] (either zero counts as 0). *)
Definition integral (x : float) : option Z :=
  match Prim2SF x with
  | S754_zero _ => Some 0
  | S754_finite s m e =>
      if 0 <=? e then Some (signed s (Zpos m * 2 ^ e))
      else if (Zpos m) mod 2 ^ (- e) =? 0
           then Some (signed s (Zpos m / 2 ^ (- e)))
           else None
  | _ => None
  end.

(** [Math.floor]. *)
Definition floor (x : float) : float :=
  match Prim2SF x with
  | S754_finite s m e =>
      if 0 <=? e then x
      else
        let q := signed s (Zpos m) / 2 ^ (- e) in
        if q =? 0 then zero else ofZ q
  | _ => x
  end.

(** ToIntegerOrInfinity on a finite Number: truncation toward zero. *)
Definition truncate (x : float) : option Z :=
  match Prim2SF x with
  | S754_zero _ => Some 0
  | S754_finite s m e =>
      Some (signed s (if 0 <=? e then Zpos m * 2 ^ e
                      else Zpos m / 2 ^ (- e)))
  | _ => None
  end.

(** The operator [%] (Number::remainder): the result takes the sign of the
    dividend and is exact. *)
Definition rem (n d : float) : float :=
  match Prim2SF n, Prim2SF d with
  | S754_nan, _ | _, S754_nan => nan
  | S754_infinity _, _ => nan
  | _, S754_zero _ => nan
  | _, S754_infinity _ => n
  | S754_zero _, _ => n
  | S754_finite sn mn en, S754_finite _ md ed =>
      let e := Z.min en ed in
      let r := (Zpos mn * 2 ^ (en - e)) mod (Zpos md * 2 ^ (ed - e)) in
      if r =? 0 then (if sn then neg_zero else zero)
      else SF2Prim (binary_normalize prec emax (signed sn r) e false)
  end.

(** Decimal digits of an integer, as Number::toString prints them. *)
Definition digits (z : Z) : string := NilZero.string_of_int (Z.to_int z).

End Number.

Declare Scope js_scope.
Delimit Scope js_scope with js.
Notation "x % y" := (Number.rem x y) (at level 40, left associativity) : js_scope.
Notation "x == y" := (PrimFloat.eqb x y) (at level 70, no associativity) : js_scope.
Notation "x !== y" := (negb (PrimFloat.eqb x y)) (at level 70, no associativity) : js_scope.
Notation "x > y" := (PrimFloat.ltb y x) : js_scope.
Notation "x < y" := (PrimFloat.ltb x y) : js_scope.

(** [Math.PI]: the binary64 value nearest to pi, a little below it. *)
Definition Math_PI : float := 0x1.921fb54442d18p+1%float.

(** ** Time values and Date objects (ECMA-262, Date objects) *)

Definition msPerDay : Z := 86400000.
Definition msPerHour : Z := 3600000.
Definition msPerMinute : Z := 60000.
Definition msPerSecond : Z := 1000.
Definition HoursPerDay : Z := 24.
Definition MinutesPerHour : Z := 60.

(** A Date object holds a time value: an integral number of milliseconds
    since the epoch, at most [maxTime] in magnitude, or NaN (an invalid
    date). *)
Inductive Date : Type :=
| InvalidDate
| ValidDate (tv : Z).

Definition maxTime : Z := 8640000000000000.

Definition wf_date (d : Date) : Prop :=
  match d with
  | InvalidDate => True
  | ValidDate tv => - maxTime <= tv <= maxTime
  end.

Definition Day (t : Z) : Z := t / msPerDay.
Definition HourFromTime (t : Z) : Z := (t / msPerHour) mod HoursPerDay.
Definition MinFromTime (t : Z) : Z := (t / msPerMinute) mod MinutesPerHour.

Definition DayFromYear (y : Z) : Z :=
  365 * (y - 1970) + (y - 1969) / 4 - (y - 1901) / 100 + (y - 1601) / 400.
Definition TimeFromYear (y : Z) : Z := msPerDay * DayFromYear y.

(** The largest year [y] with [TimeFromYear y <= t]: the estimate from the
    mean length of a Gregorian year is off by at most one. *)
Definition YearFromTime (t : Z) : Z :=
  let d := Day t in
  let y0 := 1970 + (400 * d) / 146097 in
  if DayFromYear (y0 + 1) <=? d then y0 + 1
  else if DayFromYear y0 <=? d then y0
  else y0 - 1.

Definition getTime (d : Date) : float :=
  match d with
  | InvalidDate => Number.NaN
  | ValidDate tv => Number.ofZ tv
  end.

Definition getUTCHours (d : Date) : float :=
  match d with
  | InvalidDate => Number.NaN
  | ValidDate tv => Number.ofZ (HourFromTime tv)
  end.

Definition getUTCMinutes (d : Date) : float :=
  match d with
  | InvalidDate => Number.NaN
  | ValidDate tv => Number.ofZ (MinFromTime tv)
  end.

(** ** angleBetweenClockHands *)

Definition angleBetweenClockHands (date : Date) : float :=
  let radInHour := (2 * Math_PI / 12)%float in
  let radInMinute := (2 * Math_PI / 60)%float in
  let hours := getUTCHours date in
  let minutes := getUTCMinutes date in
  let hours := if (hours > 12)%js then (hours - 12)%float else hours in
  let hoursAngle := (hours * radInHour + radInHour * minutes / 60)%float in
  let minutesAngle := (minutes * radInMinute)%float in
  let result := abs (hoursAngle - minutesAngle)%float in
  let result := if (result > Math_PI)%js then (result - Math_PI)%float else result in
  result.

(** The algorithm of the specification for the same angle: the hour taken
    modulo 12, and the reflex angle replaced by its complement to a full
    turn. *)
Definition spec_angleBetweenClockHands (date : Date) : float :=
  let hour := getUTCHours date in
  let minute := getUTCMinutes date in
  let hourHand :=
    ((hour % 12)%js * (2 * Math_PI / 12) + minute * (2 * Math_PI / 12) / 60)%float in
  let minuteHand := (minute * (2 * Math_PI / 60))%float in
  let raw := abs (hourHand - minuteHand)%float in
  if (raw > Math_PI)%js then (2 * Math_PI - raw)%float else raw.

(** ** Values, completions and the Date constructor *)

(** The primitive values a caller can pass. *)
Inductive Value : Type :=
| VUndefined
| VNull
| VBoolean (b : bool)
| VNumber (n : float)
| VString (s : string)
| VSymbol (description : string)
| VBigInt (z : Z).

(** The outcome of evaluating a call: a value, or a thrown TypeError. *)
Inductive Completion (A : Type) : Type :=
| Normal (a : A)
| ThrowTypeError.
Arguments Normal {A} a.
Arguments ThrowTypeError {A}.

(** TimeClip: a Number becomes the time value of a Date. *)
Definition TimeClip (time : float) : Date :=
  if is_nan time || is_infinity time then InvalidDate
  else if (abs time > 8.64e15)%js then InvalidDate
  else match Number.truncate time with
       | Some tv => ValidDate tv
       | None => InvalidDate
       end.

(** ** The Date Time String Format (ECMA-262): [YYYY-MM-DDTHH:mm:ss],
    an optional [.sss], then [Z] or an offset [+HH:mm] / [-HH:mm]. *)

Definition InLeapYear (y : Z) : bool :=
  if negb (y mod 4 =? 0) then false
  else if negb (y mod 100 =? 0) then true
  else if negb (y mod 400 =? 0) then false
  else true.

(** Days from the start of the year to the start of month [m] (0 to 11). *)
Definition DaysBeforeMonth (leap : bool) (m : Z) : Z :=
  nth (Z.to_nat m) [0; 31; 59; 90; 120; 151; 181; 212; 243; 273; 304; 334] 0
  + (if leap && (2 <=? m) then 1 else 0).

Definition DaysInMonth (leap : bool) (m : Z) : Z :=
  nth (Z.to_nat m) [31; 28; 31; 30; 31; 30; 31; 31; 30; 31; 30; 31] 0
  + (if leap && (m =? 1) then 1 else 0).

Definition MakeTime (hour min sec ms : Z) : Z :=
  hour * msPerHour + min * msPerMinute + sec * msPerSecond + ms.

Definition MakeDay (year month date : Z) : Z :=
  let ym := year + month / 12 in
  let mn := month mod 12 in
  DayFromYear ym + DaysBeforeMonth (InLeapYear ym) mn + date - 1.

Definition MakeDate (day time : Z) : Z := day * msPerDay + time.

Module Parse.

Definition bind {A B : Type} (o : option A) (k : A -> option B) : option B :=
  match o with
  | Some a => k a
  | None => None
  end.

Definition digit (c : ascii) : option Z :=
  let n := Z.of_N (N_of_ascii c) in
  if (48 <=? n) && (n <=? 57) then Some (n - 48) else None.

(** Exactly [k] decimal digits. *)
Fixpoint number (k : nat) (acc : Z) (s : string) : option (Z * string) :=
  match k with
  | O => Some (acc, s)
  | S k' =>
      match s with
      | String c rest => bind (digit c) (fun d => number k' (10 * acc + d) rest)
      | EmptyString => None
      end
  end.

Definition literal (c : ascii) (s : string) : option string :=
  match s with
  | String c' rest => if Ascii.eqb c c' then Some rest else None
  | EmptyString => None
  end.

Definition guard (b : bool) : option unit := if b then Some tt else None.

End Parse.

Notation "x <- e ;; k" := (Parse.bind e (fun x => k))
  (at level 61, e at next level, right associativity).
Notation "' p <- e ;; k" := (Parse.bind e (fun x => let 'p := x in k))
  (at level 61, p pattern, e at next level, right associativity).

(** [.sss], when present. *)
Definition iso8601_fraction (s : string) : option (Z * string) :=
  match Parse.literal "." s with
  | Some rest => Parse.number 3 0 rest
  | None => Some (0, s)
  end.

(** The zone designator, in minutes east of UTC; nothing may follow it. *)
Definition iso8601_offset (s : string) : option Z :=
  match s with
  | String c rest =>
      if Ascii.eqb c "Z" then _ <- Parse.guard (String.eqb rest "") ;; Some 0
      else
        sign <- (if Ascii.eqb c "+" then Some 1
                 else if Ascii.eqb c "-" then Some (-1) else None) ;;
        '(hh, rest) <- Parse.number 2 0 rest ;;
        rest <- Parse.literal ":" rest ;;
        '(mm, rest) <- Parse.number 2 0 rest ;;
        _ <- Parse.guard (String.eqb rest "" && (hh <=? 23) && (mm <=? 59)) ;;
        Some (sign * (hh * 60 + mm))
  | EmptyString => None
  end.

(** The time value a string of the format denotes. *)
Definition iso8601_time (s : string) : option Z :=
  '(year, s) <- Parse.number 4 0 s ;;
  s <- Parse.literal "-" s ;;
  '(month, s) <- Parse.number 2 0 s ;;
  s <- Parse.literal "-" s ;;
  '(day, s) <- Parse.number 2 0 s ;;
  s <- Parse.literal "T" s ;;
  '(hour, s) <- Parse.number 2 0 s ;;
  s <- Parse.literal ":" s ;;
  '(minute, s) <- Parse.number 2 0 s ;;
  s <- Parse.literal ":" s ;;
  '(second, s) <- Parse.number 2 0 s ;;
  '(ms, s) <- iso8601_fraction s ;;
  offset <- iso8601_offset s ;;
  _ <- Parse.guard ((1 <=? month) && (month <=? 12) && (1 <=? day)
                    && (day <=? DaysInMonth (InLeapYear year) (month - 1))
                    && (hour <=? 23) && (minute <=? 59) && (second <=? 59)) ;;
  Some (MakeDate (MakeDay year (month - 1) day) (MakeTime hour minute second ms)
        - offset * msPerMinute).

(** ** The host

    What the functions below take from the JavaScript engine and its
    environment, and ECMA-262 leaves to them. *)
Section Host.

Local Open Scope string_scope.

(** The local time zone adjustment, in milliseconds, at a UTC time value. *)
Variable LocalTZA : Z -> Z.

(** [Date.parse]: the time value a string denotes, NaN when the engine
    does not recognise it.  Only the Date Time String Format is fixed by
    the standard. *)
Variable Date_parse : string -> float.

(** Number::toString where the standard asks for the shortest decimal that
    reads back as the Number: a finite Number that is not an integer below
    [10^21] in magnitude. *)
Variable shortest_decimal : float -> string.

Definition LocalTime (t : Z) : Z := t + LocalTZA t.

Definition getFullYear (d : Date) : float :=
  match d with
  | InvalidDate => Number.NaN
  | ValidDate tv => Number.ofZ (YearFromTime (LocalTime tv))
  end.

Definition Number_toString (x : float) : string :=
  if is_nan x then "NaN"
  else if is_infinity x then (if get_sign x then "-Infinity" else "Infinity")
  else match Number.integral x with
       | Some z => if (Z.abs z <? 10 ^ 21)%Z then Number.digits z
                   else shortest_decimal x
       | None => shortest_decimal x
       end.

Definition Boolean_toString (b : bool) : string :=
  if b then "true" else "false".

(** ToBoolean on a String: only the empty string is false. *)
Definition String_toBoolean (s : string) : bool :=
  match s with
  | EmptyString => false
  | String _ _ => true
  end.

(** [new Date(value)] on a primitive value: a String is parsed, anything
    else goes through ToNumber, which throws on a Symbol or a BigInt. *)
Definition new_Date (value : Value) : Completion Date :=
  match value with
  | VString s => Normal (TimeClip (Date_parse s))
  | VUndefined => Normal (TimeClip Number.NaN)
  | VNull => Normal (TimeClip 0%float)
  | VBoolean b => Normal (TimeClip (if b then 1%float else 0%float))
  | VNumber n => Normal (TimeClip n)
  | VSymbol _ => ThrowTypeError
  | VBigInt _ => ThrowTypeError
  end.

(** ** The five functions of the module *)

Definition parseDataFromRfc2822 (value : Value) : Completion Date :=
  new_Date value.

Definition parseDataFromIso8601 (value : Value) : Completion Date :=
  new_Date value.

Definition isLeapYear (date : Date) : bool :=
  let year := getFullYear date in
  (year % 4 == 0)%js && ((year % 100 !== 0)%js || (year % 400 == 0)%js).

(** In the source the first conditional reads
    [("" + (hours<10)) ? "0"+hours : hours]: the operator [+] binds tighter
    than [?:], so its test is a string. *)
Definition timeSpanToString (startDate endDate : Date) : string :=
  let diff := abs (getTime startDate - getTime endDate)%float in
  let hourInMS := (60 * 60 * 1000)%float in
  let minuteInMS := (60 * 1000)%float in
  let secondInMS := 1000%float in
  let hours := Number.floor (diff / hourInMS) in
  let diff := (diff - hours * hourInMS)%float in
  let minutes := Number.floor (diff / minuteInMS) in
  let diff := (diff - minutes * minuteInMS)%float in
  let seconds := Number.floor (diff / secondInMS) in
  let mSeconds := (diff - seconds * secondInMS)%float in
  let result :=
    if String_toBoolean ("" ++ Boolean_toString (hours < 10)%js)
    then "0" ++ Number_toString hours
    else Number_toString hours in
  let result := result ++ ":" in
  let result := result ++ (if (minutes < 10)%js then "0" ++ Number_toString minutes
                           else Number_toString minutes) in
  let result := result ++ ":" in
  let result := result ++ (if (seconds < 10)%js then "0" ++ Number_toString seconds
                           else Number_toString seconds) in
  let result := result ++ "." in
  let result := if (mSeconds < 100)%js then result ++ "0" else result in
  let result := if (mSeconds < 10)%js then result ++ "0" else result in
  let result := result ++ Number_toString mSeconds in
  result.

(** The hours field as the specification words it: the whole hours,
    padded with zeros to at least two digits. *)
Definition spec_HH (hours : float) : string :=
  if (hours < 10)%js then "0" ++ Number_toString hours
  else Number_toString hours.

(** The engine follows the standard on the Date Time String Format. *)
Definition parses_date_time_format : Prop :=
  forall s tv, iso8601_time s = Some tv -> Date_parse s = Number.ofZ tv.

End Host.

(** A parser that recognises the Date Time String Format and nothing else. *)
Definition format_only_parse (s : string) : float :=
  match iso8601_time s with
  | Some tv => Number.ofZ tv
  | None => Number.NaN
  end.

(** The years of the proleptic Gregorian calendar that are leap years. *)
Definition spec_leap (Y : Z) : Prop :=
  Y mod 4 = 0 /\ (Y mod 100 <> 0 \/ Y mod 400 = 0).

(** ** Notions the statements below use *)

(** The year component of a date in local time; an invalid date has none. *)
Definition FullYear (LocalTZA : Z -> Z) (d : Date) : option Z :=
  match d with
  | InvalidDate => None
  | ValidDate tv => Some (YearFromTime (LocalTime LocalTZA tv))
  end.

(** The date shows [h]:[m] on a UTC clock. *)
Definition atUTC (h m : Z) (d : Date) : Prop :=
  match d with
  | InvalidDate => False
  | ValidDate tv => HourFromTime tv = h /\ MinFromTime tv = m
  end.

(** [P] on the [n] integers from [lo] upwards. *)
Fixpoint all_from (P : Z -> bool) (lo : Z) (n : nat) : bool :=
  match n with
  | O => true
  | S k => if P lo then all_from P (lo + 1) k else false
  end.

(** For a divisor [D] held as mantissa [D * 2^j] and exponent [-j], the
    operator [%] on an integer dividend ends by rounding [q * 2^M] at exponent
    [-M], with [0 < q < D] and [j <= M <= 52]; the check evaluates that this
    Number, of either sign, is never zero. *)
Definition remainder_check (D j : Z) : bool :=
  all_from (fun M =>
    all_from (fun q =>
      negb (SF2Prim (binary_normalize prec emax (q * 2 ^ M) (- M) false) == 0)%js
      && negb (SF2Prim (binary_normalize prec emax (- (q * 2 ^ M)) (- M) false) == 0)%js)
      1 (Z.to_nat (D - 1)))
    j (Z.to_nat (53 - j)).

(** The binary64 image of an integer below [2^53] in magnitude: zero, or a
    mantissa of 53 bits. *)
Definition canon (s : bool) (p : positive) : spec_float :=
  let k := 53 - Zpos (digits2_pos p) in
  S754_finite s (Pos.shiftl p (Z.to_N k)) (- k).

Definition repr (z : Z) : spec_float :=
  match z with
  | Z0 => S754_zero false
  | Zpos p => canon false p
  | Zneg p => canon true p
  end.

(** A field of the time span on two digits (minutes, seconds) and on three
    (milliseconds), padded with zeros. *)
Definition two_digits (z : Z) : string :=
  if z <? 10 then "0" ++ Number.digits z else Number.digits z.

Definition three_digits (z : Z) : string :=
  (if z <? 100 then "0" else "") ++ (if z <? 10 then "0" else "")
  ++ Number.digits z.

(** ** The Date Time String Format in full

    Every form of ECMA-262's format that carries a UTC offset: the year on
    four digits or, with a sign, on six; the month and the day optional
    (first month, first day); the time to the minute, to the second or to
    the millisecond, 24:00 for the end of the day; then [Z] or [+HH:mm] /
    [-HH:mm].  How the offset is written is a parameter, so that the same
    reading also serves for ISO 8601 offsets that the format leaves out. *)

(** The year: [YYYY], or [+YYYYYY] / [-YYYYYY] ([-000000] is not a year). *)
Definition format_year (s : string) : option (Z * string) :=
  match s with
  | String c rest =>
      if Ascii.eqb c "+" then Parse.number 6 0 rest
      else if Ascii.eqb c "-" then
        '(year, rest) <- Parse.number 6 0 rest ;;
        _ <- Parse.guard (negb (year =? 0)) ;;
        Some (- year, rest)
      else Parse.number 4 0 s
  | EmptyString => None
  end.

(** [-MM] or [-DD] when a hyphen follows, the first month or day when not. *)
Definition format_month_or_day (s : string) : option (Z * string) :=
  match Parse.literal "-" s with
  | Some rest => Parse.number 2 0 rest
  | None => Some (1, s)
  end.

(** [:ss] and then [.sss], each when present. *)
Definition format_seconds (s : string) : option (Z * Z * string) :=
  match Parse.literal ":" s with
  | Some rest =>
      '(second, rest) <- Parse.number 2 0 rest ;;
      '(ms, rest) <- iso8601_fraction rest ;;
      Some (second, ms, rest)
  | None => Some (0, 0, s)
  end.

(** The fields of a string, as the time value of its date and time read as
    UTC, and its offset in minutes east of UTC. *)
Definition format_fields_with (zone : string -> option Z) (s : string)
  : option (Z * Z) :=
  '(year, s) <- format_year s ;;
  '(month, s) <- format_month_or_day s ;;
  '(day, s) <- format_month_or_day s ;;
  s <- Parse.literal "T" s ;;
  '(hour, s) <- Parse.number 2 0 s ;;
  s <- Parse.literal ":" s ;;
  '(minute, s) <- Parse.number 2 0 s ;;
  '(second, ms, s) <- format_seconds s ;;
  offset <- zone s ;;
  _ <- Parse.guard ((1 <=? month) && (month <=? 12) && (1 <=? day)
                    && (day <=? DaysInMonth (InLeapYear year) (month - 1))
                    && (minute <=? 59) && (second <=? 59)
                    && ((hour <=? 23)
                        || (hour =? 24) && (minute =? 0) && (second =? 0)
                           && (ms =? 0))) ;;
  Some (MakeDate (MakeDay year (month - 1) day) (MakeTime hour minute second ms),
        offset).

(** The instant of the fields, when a Date can hold it. *)
Definition instant_of_fields (fields : option (Z * Z)) : option Z :=
  '(local, offset) <- fields ;;
  _ <- Parse.guard (Z.abs (local - offset * msPerMinute) <=? maxTime) ;;
  Some (local - offset * msPerMinute).

Definition format_fields : string -> option (Z * Z) :=
  format_fields_with iso8601_offset.

(** The time value that a string of the format denotes. *)
Definition format_instant (s : string) : option Z :=
  instant_of_fields (format_fields s).

(** ISO 8601 also writes an offset of whole hours as [+HH] / [-HH], which
    the format of ECMA-262 does not have. *)
Definition iso8601_offset_or_hours (s : string) : option Z :=
  match iso8601_offset s with
  | Some offset => Some offset
  | None =>
      match s with
      | String c rest =>
          sign <- (if Ascii.eqb c "+" then Some 1
                   else if Ascii.eqb c "-" then Some (-1) else None) ;;
          '(hh, rest) <- Parse.number 2 0 rest ;;
          _ <- Parse.guard (String.eqb rest "" && (hh <=? 23)) ;;
          Some (sign * (hh * 60))
      | EmptyString => None
      end
  end.

(** The time value that an ISO 8601 string denotes, for the strings of the
    format and those that differ from them by an offset of whole hours. *)
Definition iso8601_instant (s : string) : option Z :=
  instant_of_fields (format_fields_with iso8601_offset_or_hours s).

(** The engine follows the standard on every string of the format that
    carries an offset. *)
Definition conforms_to_format (Date_parse : string -> float) : Prop :=
  forall s tv, format_instant s = Some tv -> Date_parse s = Number.ofZ tv.

(** An engine that recognises those strings and nothing else, as the
    standard allows. *)
Definition format_strict_parse (s : string) : float :=
  match format_instant s with
  | Some tv => Number.ofZ tv
  | None => Number.NaN
  end.

(** * Properties *)

Ltac evaluate := vm_compute; reflexivity.

(** Goals on the calendar functions: case on the comparisons, then linear
    arithmetic over the quotients. *)
Ltac calendar :=
  repeat match goal with
         | |- context [?a <=? ?b] => destruct (Z.leb_spec a b)
         end;
  Z.div_mod_to_equations; lia.

(** ** Binary64 facts *)

Lemma all_from_spec (P : Z -> bool) (n : nat) :
  forall lo, all_from P lo n = true ->
  forall z, lo <= z < lo + Z.of_nat n -> P z = true.
Proof.
  induction n as [|k IH]; intros lo Hall z Hz.
  - simpl in Hz. lia.
  - cbn [all_from] in Hall.
    destruct (P lo) eqn:Hlo; [|discriminate].
    destruct (Z.eq_dec z lo) as [->|Hne]; [assumption|].
    apply (IH (lo + 1) Hall). lia.
Qed.

(** The sign given to the rounding only shows in the sign of its result. *)
Lemma SFabs_binary_round_aux (s1 s2 : bool) (m e : Z) (l : location) :
  SFabs (binary_round_aux prec emax s1 m e l)
  = SFabs (binary_round_aux prec emax s2 m e l).
Proof.
  unfold binary_round_aux.
  destruct (shr_fexp prec emax m e l) as [mrs1 e1].
  destruct (shr_fexp prec emax _ e1 loc_Exact) as [mrs2 e2].
  destruct (shr_m mrs2); [reflexivity| |reflexivity].
  destruct (e2 <=? emax - prec); reflexivity.
Qed.

Lemma SFabs_binary_normalize_opp (z e : Z) :
  SFabs (binary_normalize prec emax (- z) e false)
  = SFabs (binary_normalize prec emax z e false).
Proof.
  destruct z as [|p|p]; cbn [Z.opp binary_normalize]; [reflexivity| |];
    unfold binary_round;
    destruct (shl_align p e _) as [mz ez];
    apply SFabs_binary_round_aux.
Qed.

Lemma SFabs_SFsub_comm (x y : spec_float) :
  SFabs (SFsub prec emax x y) = SFabs (SFsub prec emax y x).
Proof.
  destruct x as [sx|sx| |sx mx ex], y as [sy|sy| |sy my ey];
    try reflexivity;
    try (destruct sx, sy; reflexivity).
  cbn [SFsub].
  rewrite (Z.min_comm ey ex).
  rewrite <- SFabs_binary_normalize_opp.
  f_equal. f_equal. lia.
Qed.

(** [Math.abs(a - b)] does not depend on the order of [a] and [b]. *)
Lemma abs_sub_comm (a b : float) : abs (a - b)%float = abs (b - a)%float.
Proof.
  apply Prim2SF_inj.
  rewrite !abs_spec, !sub_spec.
  apply SFabs_SFsub_comm.
Qed.

Lemma digits2_pos_bounds (p : positive) :
  2 ^ (Zpos (digits2_pos p) - 1) <= Zpos p < 2 ^ Zpos (digits2_pos p).
Proof.
  induction p as [p IH|p IH|]; cbn [digits2_pos].
  - rewrite Pos2Z.inj_succ.
    replace (Z.succ (Zpos (digits2_pos p)) - 1) with (Z.succ (Zpos (digits2_pos p) - 1)) by lia.
    rewrite !Z.pow_succ_r by lia. lia.
  - rewrite Pos2Z.inj_succ.
    replace (Z.succ (Zpos (digits2_pos p)) - 1) with (Z.succ (Zpos (digits2_pos p) - 1)) by lia.
    rewrite !Z.pow_succ_r by lia. lia.
  - simpl. lia.
Qed.

Lemma iter_xO_value (n p : positive) :
  Zpos (Pos.iter xO p n) = Zpos p * 2 ^ Zpos n.
Proof.
  revert p. induction n as [|n IH] using Pos.peano_ind; intro p.
  - simpl. lia.
  - rewrite Pos.iter_succ, Pos2Z.inj_succ, Z.pow_succ_r by lia.
    rewrite Pos2Z.inj_xO, IH. lia.
Qed.

Lemma iter_xO_digits (n p : positive) :
  digits2_pos (Pos.iter xO p n) = (digits2_pos p + n)%positive.
Proof.
  revert p. induction n as [|n IH] using Pos.peano_ind; intro p.
  - simpl. lia.
  - rewrite Pos.iter_succ. cbn [digits2_pos]. rewrite IH. lia.
Qed.

(** An integer below 2^53 in magnitude is a Number, kept exactly. *)
Lemma Prim2SF_ofZ_pos (s : bool) (p : positive) :
  Zpos p < 2 ^ 53 ->
  exists m k, 0 <= k <= 52 /\ Zpos m = Zpos p * 2 ^ k
    /\ Prim2SF (Number.ofZ (Number.signed s (Zpos p))) = S754_finite s m (- k).
Proof.
  intros Hp.
  pose proof (digits2_pos_bounds p) as Hd.
  assert (Hd53 : Zpos (digits2_pos p) <= 53).
  { destruct (Z_le_gt_dec (Zpos (digits2_pos p)) 53) as [|Hgt]; [assumption|].
    exfalso. assert (2 ^ 53 <= 2 ^ (Zpos (digits2_pos p) - 1)) by (apply Z.pow_le_mono_r; lia). lia. }
  set (k := 53 - Zpos (digits2_pos p)).
  assert (Hbn : binary_normalize prec emax (Number.signed s (Zpos p)) 0 false
          = S754_finite s (fst (shl_align p 0 (- k))) (- k)
          /\ Zpos (fst (shl_align p 0 (- k))) = Zpos p * 2 ^ k
          /\ digits2_pos (fst (shl_align p 0 (- k))) = 53%positive).
  { assert (Hshl : shl_align p 0 (- k) = (fst (shl_align p 0 (- k)), - k)
             /\ Zpos (fst (shl_align p 0 (- k))) = Zpos p * 2 ^ k
             /\ digits2_pos (fst (shl_align p 0 (- k))) = 53%positive).
    { unfold shl_align. rewrite Z.sub_0_r.
      destruct (Z.eq_dec k 0) as [Hk0|Hk0].
      - rewrite Hk0. cbn [Z.opp fst]. rewrite Z.pow_0_r, Z.mul_1_r.
        repeat split. unfold k in Hk0. lia.
      - destruct k as [|q|q] eqn:Hk; [congruence| |unfold k in Hk; lia].
        cbn [Z.opp fst]. rewrite iter_xO_value, iter_xO_digits.
        repeat split. unfold k in Hk. lia. }
    destruct Hshl as (Hshl & Hval & Hdig).
    set (mz := fst (shl_align p 0 (- k))) in *.
    split; [|split; assumption].
    assert (Hround : binary_round prec emax s p 0
                     = S754_finite s mz (- k)).
    { unfold binary_round.
      replace (fexp prec emax (Zpos (digits2_pos p) + 0)) with (- k)
        by (unfold fexp, emin, prec, emax, k; lia).
      rewrite Hshl.
      unfold binary_round_aux, shr_fexp.
      cbn [Zdigits2]. rewrite Hdig.
      assert (Hfexp : fexp prec emax (53 + - k) - - k = 0)
        by (unfold fexp, emin, prec, emax, k; lia).
      rewrite Hfexp.
      cbn [shr shr_record_of_loc shr_m loc_of_shr_record round_nearest_even Zdigits2].
      rewrite Hdig, Hfexp.
      cbn [shr shr_record_of_loc shr_m].
      replace (- k <=? emax - prec) with true
        by (symmetry; apply Z.leb_le; unfold emax, prec, k; lia).
      reflexivity. }
    destruct s; cbn [Number.signed Z.opp binary_normalize]; exact Hround. }
  destruct Hbn as (Hbn & Hval & Hdig).
  exists (fst (shl_align p 0 (- k))), k.
  split; [unfold k; lia|]. split; [exact Hval|].
  unfold Number.ofZ. rewrite Hbn.
  apply Prim2SF_SF2Prim.
  unfold valid_binary, bounded, canonical_mantissa, fexp. rewrite Hdig.
  apply andb_true_iff. split.
  - apply Z.eqb_eq. unfold emin, prec, emax, k. lia.
  - apply Z.leb_le. unfold prec, emax, k. lia.
Qed.

(** On an integer below [2^53] in magnitude and a divisor [D] that is a
    Number, [%] gives zero exactly when [D] divides the integer. *)
Lemma rem_ofZ_is_zero (D j : Z) (dflt : float) (md : positive) :
  0 < D -> 0 <= j <= 52 ->
  Prim2SF dflt = S754_finite false md (- j) -> Zpos md = D * 2 ^ j ->
  remainder_check D j = true ->
  forall Y, Z.abs Y < 2 ^ 53 ->
  (Number.rem (Number.ofZ Y) dflt == 0)%js = (Y mod D =? 0).
Proof.
  intros HD Hj Hd Hmd Hcheck Y HY.
  assert (Hpos : forall s p, Zpos p < 2 ^ 53 ->
            (Number.rem (Number.ofZ (Number.signed s (Zpos p))) dflt == 0)%js
            = (Zpos p mod D =? 0)).
  { intros s p Hp.
    destruct (Prim2SF_ofZ_pos s p Hp) as (m & k & Hk & Hm & Hn).
    unfold Number.rem. rewrite Hn, Hd.
    set (M := Z.max k j).
    replace (Z.min (- k) (- j)) with (- M) by (unfold M; lia).
    assert (HN : Zpos m * 2 ^ (- k - - M) = Zpos p * 2 ^ M).
    { rewrite Hm, <- Z.mul_assoc, <- Z.pow_add_r by (unfold M; lia).
      do 2 f_equal. lia. }
    assert (HDd : Zpos md * 2 ^ (- j - - M) = D * 2 ^ M).
    { rewrite Hmd, <- Z.mul_assoc, <- Z.pow_add_r by (unfold M; lia).
      do 2 f_equal. lia. }
    rewrite HN, HDd.
    assert (H2M : 0 < 2 ^ M) by (apply Z.pow_pos_nonneg; unfold M; lia).
    rewrite Z.mul_mod_distr_r by lia.
    pose proof (Z.mod_pos_bound (Zpos p) D HD) as Hq.
    set (q := Zpos p mod D) in *.
    destruct (Z.eq_dec q 0) as [Hq0|Hq0].
    - rewrite Hq0. cbn [Z.mul Z.eqb]. destruct s; reflexivity.
    - replace (q * 2 ^ M =? 0) with false by (symmetry; apply Z.eqb_neq; nia).
      replace (q =? 0) with false by (symmetry; apply Z.eqb_neq; lia).
      pose proof (all_from_spec _ _ _ Hcheck M ltac:(unfold M; lia)) as HrowM.
      cbv beta in HrowM.
      pose proof (all_from_spec _ _ _ HrowM q ltac:(lia)) as Hcell.
      cbv beta in Hcell.
      apply andb_true_iff in Hcell. destruct Hcell as [Hplus Hminus].
      destruct s; cbn [Number.signed].
      + apply negb_true_iff. exact Hminus.
      + apply negb_true_iff. exact Hplus. }
  destruct Y as [|p|p].
  - unfold Number.rem. rewrite Hd.
    replace (Prim2SF (Number.ofZ 0)) with (S754_zero false) by reflexivity.
    reflexivity.
  - apply (Hpos false p). exact HY.
  - change (Z.neg p) with (Number.signed true (Zpos p)) at 1.
    rewrite (Hpos true p) by exact HY.
    change (Z.neg p) with (- Zpos p).
    destruct (Z.eq_dec (Zpos p mod D) 0) as [H0|H0].
    + rewrite H0. rewrite Z.mod_opp_l_z by lia. reflexivity.
    + replace (Zpos p mod D =? 0) with false by (symmetry; apply Z.eqb_neq; exact H0).
      symmetry. apply Z.eqb_neq. rewrite Z.mod_opp_l_nz by lia.
      pose proof (Z.mod_pos_bound (Zpos p) D HD). lia.
Qed.

(** ** timeSpanToString *)

(** The examples of the source's documentation. *)
Example timeSpanToString_examples (shortest_decimal : float -> string) :
  let at2000 h m s ms :=
    ValidDate (MakeDate (MakeDay 2000 1 1) (MakeTime h m s ms)) in
  timeSpanToString shortest_decimal (at2000 10 0 0 0) (at2000 11 0 0 0)
    = "01:00:00.000"%string
  /\ timeSpanToString shortest_decimal (at2000 10 0 0 0) (at2000 10 30 0 0)
    = "00:30:00.000"%string
  /\ timeSpanToString shortest_decimal (at2000 10 0 0 0) (at2000 10 0 20 0)
    = "00:00:20.000"%string
  /\ timeSpanToString shortest_decimal (at2000 10 0 0 0) (at2000 10 0 0 250)
    = "00:00:00.250"%string
  /\ timeSpanToString shortest_decimal (at2000 10 0 0 0) (at2000 15 20 10 453)
    = "05:20:10.453"%string.
Proof. repeat split; evaluate. Qed.

(** C5. timeSpanToString is symmetric in its two arguments: the string for
    [start], [end] is the string for [end], [start], for every pair of
    dates, valid or not. *)
Theorem timeSpanToString_symmetric
    (shortest_decimal : float -> string) (startDate endDate : Date) :
  timeSpanToString shortest_decimal startDate endDate
  = timeSpanToString shortest_decimal endDate startDate.
Proof.
  unfold timeSpanToString.
  rewrite (abs_sub_comm (getTime startDate) (getTime endDate)).
  reflexivity.
Qed.

(** C2. A span of exactly 30 hours does not render with the hours field
    ["30"]: whatever the hours, the first conditional takes its ["0" + hours]
    branch, and the string is ["030:00:00.000"], where the hours field of the
    specification is ["30"]. *)
Theorem timeSpanToString_30_hours (shortest_decimal : float -> string) :
  timeSpanToString shortest_decimal (ValidDate 0) (ValidDate (30 * msPerHour))
    = "030:00:00.000"%string
  /\ spec_HH shortest_decimal (Number.ofZ 30) = "30"%string.
Proof. split; evaluate. Qed.

(** The test of the first conditional is the string ["true"] or ["false"],
    never the empty string. *)
Lemma first_conditional_always_taken (b : bool) :
  String_toBoolean ("" ++ Boolean_toString b) = true.
Proof. destruct b; reflexivity. Qed.

(** ** angleBetweenClockHands *)

(** Only the UTC hour and minute of the date reach the result. *)
Lemma angle_depends_on_clock (t1 t2 : Z) :
  HourFromTime t1 = HourFromTime t2 ->
  MinFromTime t1 = MinFromTime t2 ->
  angleBetweenClockHands (ValidDate t1) = angleBetweenClockHands (ValidDate t2).
Proof.
  intros Hh Hm. unfold angleBetweenClockHands, getUTCHours, getUTCMinutes.
  rewrite Hh, Hm. reflexivity.
Qed.

Lemma clock_of_MakeTime (h m : Z) :
  0 <= h < 24 -> 0 <= m < 60 ->
  HourFromTime (MakeTime h m 0 0) = h /\ MinFromTime (MakeTime h m 0 0) = m.
Proof.
  intros Hh Hm.
  unfold HourFromTime, MinFromTime, MakeTime, msPerHour, msPerMinute,
    msPerSecond, HoursPerDay, MinutesPerHour.
  split; calendar.
Qed.

Lemma clock_range (t : Z) :
  0 <= HourFromTime t < 24 /\ 0 <= MinFromTime t < 60.
Proof.
  unfold HourFromTime, MinFromTime, HoursPerDay, MinutesPerHour.
  split; apply Z.mod_pos_bound; lia.
Qed.

(** Every date shows the clock face of a time within the first day. *)
Lemma same_clock_first_day (t : Z) :
  angleBetweenClockHands (ValidDate t)
  = angleBetweenClockHands
      (ValidDate (MakeTime (HourFromTime t) (MinFromTime t) 0 0)).
Proof.
  destruct (clock_range t) as [Hh Hm].
  destruct (clock_of_MakeTime _ _ Hh Hm) as [Eh Em].
  apply angle_depends_on_clock; congruence.
Qed.

(** The 24 * 60 clock faces, each evaluated. *)
Lemma all_clock_faces_in_range :
  all_from (fun h =>
    all_from (fun m =>
      let r := angleBetweenClockHands (ValidDate (MakeTime h m 0 0)) in
      (0 <=? r)%float && (r <=? Math_PI)%float) 0 60) 0 24 = true.
Proof. evaluate. Qed.

(** C3. For every valid date the angle lies between 0 and pi.  The bound is
    checked against [Math.PI], the largest binary64 value not above pi, so a
    Number is at most pi exactly when it is at most [Math.PI]. *)
Theorem angleBetweenClockHands_range (tv : Z) :
  (0 <=? angleBetweenClockHands (ValidDate tv))%float = true
  /\ (angleBetweenClockHands (ValidDate tv) <=? Math_PI)%float = true.
Proof.
  rewrite same_clock_first_day.
  destruct (clock_range tv) as [Hh Hm].
  pose proof (all_from_spec _ _ _ all_clock_faces_in_range
                (HourFromTime tv) ltac:(simpl; lia)) as Hrow.
  cbv beta in Hrow.
  pose proof (all_from_spec _ _ _ Hrow (MinFromTime tv) ltac:(simpl; lia)) as Hface.
  cbv beta zeta in Hface.
  apply andb_true_iff in Hface. exact Hface.
Qed.

(** C8. At UTC 00:00 the angle is 0, at 03:00 it is [Math.PI/2], at 18:00
    [Math.PI] and at 21:00 [Math.PI/2], on any day. *)
Theorem angleBetweenClockHands_examples (d0 d3 d18 d21 : Date) :
  atUTC 0 0 d0 -> atUTC 3 0 d3 -> atUTC 18 0 d18 -> atUTC 21 0 d21 ->
  angleBetweenClockHands d0 = 0%float
  /\ angleBetweenClockHands d3 = (Math_PI / 2)%float
  /\ angleBetweenClockHands d18 = Math_PI
  /\ angleBetweenClockHands d21 = (Math_PI / 2)%float.
Proof.
  destruct d0 as [|t0], d3 as [|t3], d18 as [|t18], d21 as [|t21];
    cbn [atUTC]; try tauto.
  intros [Hh0 Hm0] [Hh3 Hm3] [Hh18 Hm18] [Hh21 Hm21].
  rewrite (same_clock_first_day t0), (same_clock_first_day t3),
    (same_clock_first_day t18), (same_clock_first_day t21).
  rewrite Hh0, Hm0, Hh3, Hm3, Hh18, Hm18, Hh21, Hm21.
  repeat split; evaluate.
Qed.

(** Midnight and 03:00, 18:00, 21:00 on 5 April 2016 (the dates of the
    source's examples are on this clock). *)
Lemma angleBetweenClockHands_examples_witness :
  angleBetweenClockHands (ValidDate 0) = 0%float
  /\ angleBetweenClockHands (ValidDate 1459825200000) = (Math_PI / 2)%float
  /\ angleBetweenClockHands (ValidDate 1459879200000) = Math_PI
  /\ angleBetweenClockHands (ValidDate 1459890000000) = (Math_PI / 2)%float.
Proof.
  apply (angleBetweenClockHands_examples
           (ValidDate 0) (ValidDate 1459825200000)
           (ValidDate 1459879200000) (ValidDate 1459890000000));
    vm_compute; split; reflexivity.
Defined.

(** C1. At 10:00 UTC the function does not return what the algorithm of the
    specification gives: the raw angle is five thirds of pi, the source
    subtracts pi from it where the specification subtracts it from a full
    turn.  At 12:00 the hour is not reduced to 0 and the result is pi, not 0. *)
Theorem angleBetweenClockHands_departs_from_spec :
  let ten := ValidDate (MakeTime 10 0 0 0) in
  let noon := ValidDate (MakeTime 12 0 0 0) in
  (angleBetweenClockHands ten =? spec_angleBetweenClockHands ten)%float = false
  /\ (2 <? angleBetweenClockHands ten)%float = true
  /\ (spec_angleBetweenClockHands ten <? 1.25)%float = true
  /\ angleBetweenClockHands noon = Math_PI
  /\ spec_angleBetweenClockHands noon = 0%float.
Proof. repeat split; evaluate. Qed.

(** ** isLeapYear *)

Lemma leap_divisors_checked :
  remainder_check 4 50 = true /\ remainder_check 100 46 = true
  /\ remainder_check 400 44 = true.
Proof. repeat split; evaluate. Qed.

(** The test of the source on a year that is an integer. *)
Lemma leap_test_ofZ (Y : Z) :
  Z.abs Y < 2 ^ 53 ->
  (let year := Number.ofZ Y in
   (year % 4 == 0)%js && ((year % 100 !== 0)%js || (year % 400 == 0)%js))
  = (Y mod 4 =? 0) && (negb (Y mod 100 =? 0) || (Y mod 400 =? 0)).
Proof.
  intros HY. cbv zeta.
  destruct leap_divisors_checked as (H4 & H100 & H400).
  rewrite (rem_ofZ_is_zero 4 50 4%float 4503599627370496)
    by (reflexivity || lia || assumption).
  rewrite (rem_ofZ_is_zero 100 46 100%float 7036874417766400)
    by (reflexivity || lia || assumption).
  rewrite (rem_ofZ_is_zero 400 44 400%float 7036874417766400)
    by (reflexivity || lia || assumption).
  reflexivity.
Qed.

(** C4. For every date with year component [Y], isLeapYear returns true
    exactly when [Y mod 4 = 0] and ([Y mod 100 <> 0] or [Y mod 400 = 0]): true
    for the years 2000 and 2012, false for 1900, 2001 and 2015.  The year is
    read as an integer that a Number holds exactly, as every year of a Date
    is ([FullYear_range]). *)
Theorem isLeapYear_spec (LocalTZA : Z -> Z) (date : Date) (Y : Z) :
  FullYear LocalTZA date = Some Y ->
  Z.abs Y < 2 ^ 53 ->
  (isLeapYear LocalTZA date = true <-> spec_leap Y)
  /\ (Y = 2000 \/ Y = 2012 -> isLeapYear LocalTZA date = true)
  /\ (Y = 1900 \/ Y = 2001 \/ Y = 2015 -> isLeapYear LocalTZA date = false).
Proof.
  intros HYear HY.
  destruct date as [|tv]; [discriminate|].
  cbn [FullYear] in HYear. injection HYear as HYear.
  assert (Hcode : isLeapYear LocalTZA (ValidDate tv)
                  = (Y mod 4 =? 0) && (negb (Y mod 100 =? 0) || (Y mod 400 =? 0))).
  { unfold isLeapYear, getFullYear. rewrite HYear. apply leap_test_ofZ, HY. }
  rewrite Hcode. clear Hcode.
  split; [|split].
  - unfold spec_leap.
    rewrite andb_true_iff, orb_true_iff, negb_true_iff, !Z.eqb_eq, Z.eqb_neq.
    reflexivity.
  - intros [-> | ->]; reflexivity.
  - intros [-> | [-> | ->]]; reflexivity.
Qed.

(** 1 February 2000, on a host whose local time is UTC. *)
Lemma isLeapYear_spec_witness :
  let utc := fun _ : Z => 0 in
  let date := ValidDate (MakeDate (MakeDay 2000 1 1) 0) in
  (isLeapYear utc date = true <-> spec_leap 2000)
  /\ (2000 = 2000 \/ 2000 = 2012 -> isLeapYear utc date = true)
  /\ (2000 = 1900 \/ 2000 = 2001 \/ 2000 = 2015 -> isLeapYear utc date = false).
Proof.
  apply (isLeapYear_spec (fun _ => 0) (ValidDate (MakeDate (MakeDay 2000 1 1) 0)) 2000).
  - evaluate.
  - evaluate.
Defined.

(** [YearFromTime] is the year ECMA-262 defines: the largest [y] whose
    first instant is not after [t]. *)
Lemma YearFromTime_spec (t : Z) :
  TimeFromYear (YearFromTime t) <= t < TimeFromYear (YearFromTime t + 1).
Proof.
  unfold TimeFromYear, YearFromTime, Day, DayFromYear, msPerDay.
  calendar.
Qed.

Lemma DayFromYear_mono (a b : Z) : a <= b -> DayFromYear a <= DayFromYear b.
Proof. unfold DayFromYear. intros Hab. calendar. Qed.

Lemma YearFromTime_largest (t y : Z) :
  TimeFromYear y <= t -> y <= YearFromTime t.
Proof.
  intros Hy.
  destruct (Z_le_gt_dec y (YearFromTime t)) as [|Hgt]; [assumption|exfalso].
  pose proof (YearFromTime_spec t) as [_ Hlt].
  pose proof (DayFromYear_mono (YearFromTime t + 1) y ltac:(lia)) as Hmono.
  unfold TimeFromYear, msPerDay in *. lia.
Qed.

(** The years a Date can show, in a zone at most a day from UTC. *)
Lemma FullYear_range (LocalTZA : Z -> Z) (date : Date) (Y : Z) :
  (forall t, - msPerDay <= LocalTZA t <= msPerDay) ->
  wf_date date ->
  FullYear LocalTZA date = Some Y ->
  -271822 <= Y <= 275761.
Proof.
  intros Hzone Hwf HY.
  destruct date as [|tv]; [discriminate|].
  cbn [FullYear wf_date] in *. injection HY as <-.
  specialize (Hzone tv).
  unfold LocalTime, YearFromTime, Day, DayFromYear, maxTime, msPerDay in *.
  calendar.
Qed.

(** C9. isLeapYear depends on the year component only: two dates with the
    same year component, whatever their months, days and times of day, get
    the same answer (two invalid dates, which have no year, included). *)
Theorem isLeapYear_only_year (LocalTZA : Z -> Z) (d1 d2 : Date) :
  FullYear LocalTZA d1 = FullYear LocalTZA d2 ->
  isLeapYear LocalTZA d1 = isLeapYear LocalTZA d2.
Proof.
  intros HY. unfold isLeapYear.
  assert (Hget : getFullYear LocalTZA d1 = getFullYear LocalTZA d2).
  { destruct d1 as [|t1], d2 as [|t2]; cbn [FullYear getFullYear] in *;
      try discriminate; [reflexivity|].
    injection HY as ->. reflexivity. }
  rewrite Hget. reflexivity.
Qed.

(** The first and the last millisecond of 2012. *)
Lemma isLeapYear_only_year_witness :
  let utc := fun _ : Z => 0 in
  isLeapYear utc (ValidDate (MakeDate (MakeDay 2012 0 1) (MakeTime 0 0 0 0)))
  = isLeapYear utc (ValidDate (MakeDate (MakeDay 2012 11 31) (MakeTime 23 59 59 999))).
Proof.
  apply (isLeapYear_only_year (fun _ => 0)).
  evaluate.
Defined.

(** ** parseDataFromRfc2822 and parseDataFromIso8601 *)

(** C10. The two parsers are the same function: on every value, of any
    type, they return the same completion. *)
Theorem parsers_extensionally_equal
    (Date_parse : string -> float) (value : Value) :
  parseDataFromRfc2822 Date_parse value = parseDataFromIso8601 Date_parse value.
Proof. reflexivity. Qed.

(** A value that is not a string can make them throw. *)
Example parsers_throw_on_symbol (Date_parse : string -> float) :
  parseDataFromRfc2822 Date_parse (VSymbol "") = ThrowTypeError
  /\ parseDataFromIso8601 Date_parse (VBigInt 0) = ThrowTypeError.
Proof. split; reflexivity. Qed.

(** C7. On a string neither parser throws: both complete normally with the
    same date, and when the engine does not recognise the string (its parse
    is NaN) that date is the invalid date, whose time value is NaN. *)
Theorem parsers_never_throw_on_strings
    (Date_parse : string -> float) (s : string) :
  exists d : Date,
    parseDataFromRfc2822 Date_parse (VString s) = Normal d
    /\ parseDataFromIso8601 Date_parse (VString s) = Normal d
    /\ (is_nan (Date_parse s) = true ->
        d = InvalidDate /\ is_nan (getTime d) = true).
Proof.
  exists (TimeClip (Date_parse s)).
  split; [reflexivity|]. split; [reflexivity|].
  intros Hnan. unfold TimeClip. rewrite Hnan. cbn [orb].
  split; reflexivity.
Qed.

Example parse_unrecognised :
  parseDataFromIso8601 format_only_parse (VString "19 January") = Normal InvalidDate
  /\ parseDataFromRfc2822 format_only_parse (VString "") = Normal InvalidDate.
Proof. split; evaluate. Qed.

Lemma format_only_parse_conforms : parses_date_time_format format_only_parse.
Proof.
  intros s tv Hs. unfold format_only_parse. rewrite Hs. reflexivity.
Qed.

(** * Further properties *)

(** ** Integers in binary64 *)

Lemma digits2_pos_unique (p : positive) (d : Z) :
  2 ^ (d - 1) <= Zpos p < 2 ^ d -> Zpos (digits2_pos p) = d.
Proof.
  intros [Hlo Hhi].
  pose proof (digits2_pos_bounds p) as [Hlo' Hhi'].
  set (d' := Zpos (digits2_pos p)) in *.
  assert (Hd : 0 < d).
  { destruct (Z_lt_le_dec 0 d) as [|Hle]; [assumption|exfalso].
    destruct (Z.eq_dec d 0) as [->|Hne]; [simpl in Hhi; lia|].
    rewrite (Z.pow_neg_r 2 d) in Hhi by lia. lia. }
  assert (0 < d') by (unfold d'; lia).
  destruct (Z.lt_trichotomy d' d) as [Hlt|[Heq|Hgt]]; [exfalso|assumption|exfalso].
  - assert (2 ^ d' <= 2 ^ (d - 1)) by (apply Z.pow_le_mono_r; lia). lia.
  - assert (2 ^ d <= 2 ^ (d' - 1)) by (apply Z.pow_le_mono_r; lia). lia.
Qed.

Lemma shiftl_value (p : positive) (n : Z) :
  0 <= n -> Zpos (Pos.shiftl p (Z.to_N n)) = Zpos p * 2 ^ n.
Proof.
  intros Hn. destruct n as [|q|q]; [simpl; lia| |lia].
  cbn [Z.to_N Pos.shiftl]. apply iter_xO_value.
Qed.

Lemma canon_mantissa (p : positive) :
  Zpos p < 2 ^ 53 ->
  let k := 53 - Zpos (digits2_pos p) in
  0 <= k <= 52
  /\ Zpos (Pos.shiftl p (Z.to_N k)) = Zpos p * 2 ^ k
  /\ digits2_pos (Pos.shiftl p (Z.to_N k)) = 53%positive.
Proof.
  intros Hp k.
  pose proof (digits2_pos_bounds p) as Hd.
  assert (Hd53 : Zpos (digits2_pos p) <= 53).
  { destruct (Z_le_gt_dec (Zpos (digits2_pos p)) 53) as [|Hgt]; [assumption|exfalso].
    assert (2 ^ 53 <= 2 ^ (Zpos (digits2_pos p) - 1)) by (apply Z.pow_le_mono_r; lia).
    lia. }
  assert (Hk : 0 <= k <= 52) by (unfold k; lia).
  split; [exact Hk|]. split; [apply shiftl_value; lia|].
  destruct k as [|q|q] eqn:Ek; [| |lia].
  - cbn [Z.to_N Pos.shiftl]. unfold k in Ek. lia.
  - cbn [Z.to_N Pos.shiftl]. rewrite iter_xO_digits. unfold k in Ek. lia.
Qed.

Lemma iter_pos_is_Pos_iter {A : Type} (f : A -> A) (n : positive) (x : A) :
  iter_pos f n x = Pos.iter f x n.
Proof.
  revert x. induction n as [n IH|n IH|]; intro x; cbn [iter_pos Pos.iter].
  - rewrite !IH. rewrite <- !Pos.iter_swap. reflexivity.
  - rewrite !IH. reflexivity.
  - reflexivity.
Qed.

(** Shifting right the bits that a shift to the left put there loses
    nothing. *)
Lemma shr_shiftl (m n : positive) :
  iter_pos shr_1 n (Build_shr_record (Zpos (Pos.iter xO m n)) false false)
  = Build_shr_record (Zpos m) false false.
Proof.
  rewrite iter_pos_is_Pos_iter.
  induction n as [|n IH] using Pos.peano_ind.
  - reflexivity.
  - rewrite !Pos.iter_succ. rewrite <- Pos.iter_swap. exact IH.
Qed.

(** A mantissa of 53 bits followed by [n] zero bits is rounded to the
    mantissa, exactly. *)
Lemma binary_round_aux_exact (s : bool) (m : positive) (n e : Z) :
  digits2_pos m = 53%positive -> 0 <= n -> -1074 <= e -> e + n <= 971 ->
  binary_round_aux prec emax s (Zpos (Pos.shiftl m (Z.to_N n))) e loc_Exact
  = S754_finite s m (e + n).
Proof.
  intros Hm Hn He Hen.
  assert (Hfexp : forall x, -1074 <= x -> fexp prec emax (53 + x) - x = 0)
    by (intros x Hx; unfold fexp, emin, prec, emax; lia).
  assert (Hlast : forall e', -1074 <= e' <= 971 ->
            (let '(mrs, e'') := shr_fexp prec emax (Zpos m) e' loc_Exact in
             match shr_m mrs with
             | 0 => S754_zero s
             | Zpos m' => if e'' <=? emax - prec then S754_finite s m' e''
                          else S754_infinity s
             | Zneg _ => S754_nan
             end) = S754_finite s m e').
  { intros e' He'. unfold shr_fexp. cbn [Zdigits2]. rewrite Hm, Hfexp by lia.
    cbn [shr shr_record_of_loc shr_m].
    replace (e' <=? emax - prec) with true
      by (symmetry; apply Z.leb_le; unfold emax, prec; lia).
    reflexivity. }
  unfold binary_round_aux.
  destruct n as [|q|q]; [| |lia].
  - cbn [Z.to_N Pos.shiftl]. rewrite Z.add_0_r.
    unfold shr_fexp at 1. cbn [Zdigits2]. rewrite Hm, Hfexp by lia.
    cbn [shr shr_record_of_loc shr_m loc_of_shr_record round_nearest_even].
    apply Hlast. lia.
  - cbn [Z.to_N Pos.shiftl].
    unfold shr_fexp at 1. cbn [Zdigits2]. rewrite iter_xO_digits, Hm.
    replace (fexp prec emax (Zpos (53 + q) + e) - e) with (Zpos q)
      by (unfold fexp, emin, prec, emax; lia).
    cbn [shr shr_record_of_loc]. rewrite shr_shiftl.
    cbn [shr_m loc_of_shr_record round_nearest_even].
    apply Hlast. lia.
Qed.

Lemma positive_of_value (M m : positive) (n : Z) :
  0 <= n -> Zpos M = Zpos m * 2 ^ n -> M = Pos.shiftl m (Z.to_N n).
Proof.
  intros Hn HM. apply Pos2Z.inj. rewrite shiftl_value by exact Hn. exact HM.
Qed.

(** A positive integer below [2^53], given with [n] more zero bits at
    exponent [-n], normalizes to its canonical image. *)
Lemma binary_round_integer (s : bool) (M p : positive) (n : Z) :
  Zpos p < 2 ^ 53 -> 0 <= n <= 1074 -> Zpos M = Zpos p * 2 ^ n ->
  binary_round prec emax s M (- n) = canon s p.
Proof.
  intros Hp Hn HM.
  destruct (canon_mantissa p Hp) as (Hk & Hval & Hdig).
  unfold canon. set (k := 53 - Zpos (digits2_pos p)) in *.
  set (m := Pos.shiftl p (Z.to_N k)) in *.
  assert (HdM : Zpos (digits2_pos M) = Zpos (digits2_pos p) + n).
  { apply digits2_pos_unique. rewrite HM.
    pose proof (digits2_pos_bounds p) as [Hlo Hhi].
    replace (Zpos (digits2_pos p) + n - 1) with (Zpos (digits2_pos p) - 1 + n) by lia.
    rewrite !Z.pow_add_r by lia.
    assert (0 < 2 ^ n) by (apply Z.pow_pos_nonneg; lia). nia. }
  unfold binary_round.
  replace (fexp prec emax (Zpos (digits2_pos M) + - n)) with (- k)
    by (unfold fexp, emin, prec, emax, k; lia).
  unfold shl_align.
  destruct (- k - - n) as [|d|d] eqn:Hshift.
  - (* n = k *)
    assert (M = m) by (apply Pos2Z.inj; rewrite HM, Hval; f_equal; f_equal; lia).
    subst M. replace (- n) with (- k) by lia.
    replace m with (Pos.shiftl m (Z.to_N 0)) at 1 by reflexivity.
    rewrite binary_round_aux_exact by (assumption || lia). f_equal. lia.
  - (* n > k : the rounding shifts right *)
    assert (HMm : M = Pos.shiftl m (Z.to_N (n - k))).
    { apply positive_of_value; [lia|]. rewrite HM, Hval, <- Z.mul_assoc, <- Z.pow_add_r by lia.
      do 2 f_equal. lia. }
    rewrite HMm, binary_round_aux_exact by (assumption || lia). f_equal. lia.
  - (* n < k : the alignment shifts left *)
    assert (Hm' : Pos.iter xO M d = m).
    { apply Pos2Z.inj. rewrite iter_xO_value, HM, Hval, <- Z.mul_assoc, <- Z.pow_add_r by lia.
      do 2 f_equal. lia. }
    rewrite Hm'.
    replace m with (Pos.shiftl m (Z.to_N 0)) at 1 by reflexivity.
    rewrite binary_round_aux_exact by (assumption || lia). f_equal. lia.
Qed.

Lemma binary_normalize_integer (z : Z) (n : Z) :
  Z.abs z < 2 ^ 53 -> 0 <= n <= 1074 ->
  binary_normalize prec emax (z * 2 ^ n) (- n) false = repr z.
Proof.
  intros Hz Hn.
  assert (H2n : 0 < 2 ^ n) by (apply Z.pow_pos_nonneg; lia).
  destruct z as [|p|p]; [reflexivity| |].
  - destruct (Zpos p * 2 ^ n) as [|M|M] eqn:HM; try lia.
    cbn [binary_normalize repr]. apply binary_round_integer; assumption || lia.
  - destruct (Zneg p * 2 ^ n) as [|M|M] eqn:HM; try lia.
    cbn [binary_normalize repr]. apply binary_round_integer; assumption || lia.
Qed.

Lemma valid_canon (s : bool) (p : positive) :
  Zpos p < 2 ^ 53 -> valid_binary (canon s p) = true.
Proof.
  intros Hp. destruct (canon_mantissa p Hp) as (Hk & _ & Hdig).
  unfold canon, valid_binary, bounded, canonical_mantissa, fexp. rewrite Hdig.
  apply andb_true_iff. split.
  - apply Z.eqb_eq. unfold emin, prec, emax. lia.
  - apply Z.leb_le. unfold prec, emax. lia.
Qed.

(** What [Prim2SF] shows of the Number of an integer. *)
Lemma Prim2SF_ofZ (z : Z) :
  Z.abs z < 2 ^ 53 -> Prim2SF (Number.ofZ z) = repr z.
Proof.
  intros Hz. unfold Number.ofZ.
  replace z with (z * 2 ^ 0) at 1 by (simpl; lia).
  change 0 with (- 0) at 2.
  rewrite binary_normalize_integer by lia.
  apply Prim2SF_SF2Prim.
  destruct z; [reflexivity| |]; apply valid_canon; assumption.
Qed.

Lemma ofZ_of_repr (x : float) (z : Z) :
  Z.abs z < 2 ^ 53 -> Prim2SF x = repr z -> x = Number.ofZ z.
Proof.
  intros Hz Hx. apply Prim2SF_inj. rewrite Prim2SF_ofZ by exact Hz. exact Hx.
Qed.

Lemma repr_finite (z : Z) :
  z <> 0 -> Z.abs z < 2 ^ 53 ->
  exists m k, repr z = S754_finite (z <? 0) m (- k)
    /\ 0 <= k <= 52 /\ Zpos m = Z.abs z * 2 ^ k
    /\ digits2_pos m = 53%positive.
Proof.
  intros Hz Hlt.
  destruct z as [|p|p]; [congruence| |];
    destruct (canon_mantissa p Hlt) as (Hk & Hval & Hdig);
    eexists; eexists; (split; [reflexivity|]); repeat split; assumption || lia.
Qed.

(** Aligning a canonical mantissa at a lower exponent multiplies it by a
    power of two. *)
Lemma shl_align_value (m : positive) (e e' : Z) :
  e' <= e -> Zpos (fst (shl_align m e e')) = Zpos m * 2 ^ (e - e').
Proof.
  intros He. unfold shl_align.
  destruct (e' - e) as [|d|d] eqn:Hd; cbn [fst].
  - replace (e - e') with 0 by lia. simpl. lia.
  - lia.
  - rewrite iter_xO_value. do 2 f_equal. lia.
Qed.

(** Subtraction of integers is exact while the operands and the result
    stay below [2^53]. *)
Lemma ofZ_sub (a b : Z) :
  Z.abs a < 2 ^ 53 -> Z.abs b < 2 ^ 53 -> Z.abs (a - b) < 2 ^ 53 ->
  (Number.ofZ a - Number.ofZ b)%float = Number.ofZ (a - b).
Proof.
  intros Ha Hb Hab. apply ofZ_of_repr; [exact Hab|].
  rewrite sub_spec, !Prim2SF_ofZ by assumption.
  destruct (Z.eq_dec a 0) as [->|Ha0]; destruct (Z.eq_dec b 0) as [->|Hb0].
  - reflexivity.
  - destruct b as [|p|p]; [congruence| |]; reflexivity.
  - rewrite Z.sub_0_r. destruct a as [|p|p]; [congruence| |]; reflexivity.
  - destruct (repr_finite a Ha0 Ha) as (ma & ka & Era & Hka & Hma & _).
    destruct (repr_finite b Hb0 Hb) as (mb & kb & Erb & Hkb & Hmb & _).
    rewrite Era, Erb. cbn [SF64sub SFsub].
    set (ez := Z.min (- ka) (- kb)).
    assert (Hval : cond_Zopp (a <? 0) (Zpos (fst (shl_align ma (- ka) ez)))
                   - cond_Zopp (b <? 0) (Zpos (fst (shl_align mb (- kb) ez)))
                   = (a - b) * 2 ^ (- ez)).
    { rewrite !shl_align_value by (unfold ez; lia).
      rewrite Hma, Hmb, <- !Z.mul_assoc, <- !Z.pow_add_r by (unfold ez; lia).
      replace (ka + (- ka - ez)) with (- ez) by lia.
      replace (kb + (- kb - ez)) with (- ez) by lia.
      unfold cond_Zopp.
      destruct (Z.ltb_spec a 0), (Z.ltb_spec b 0); nia. }
    unfold SF64sub. cbn [SFsub]. fold ez. rewrite Hval.
    replace ez with (- - ez) at 2 by lia.
    apply binary_normalize_integer; [exact Hab|unfold ez; lia].
Qed.

(** So is the product of two integers that are not negative. *)
Lemma ofZ_mul (a b : Z) :
  0 <= a -> 0 <= b -> a * b < 2 ^ 53 -> a < 2 ^ 53 -> b < 2 ^ 53 ->
  (Number.ofZ a * Number.ofZ b)%float = Number.ofZ (a * b).
Proof.
  intros Ha Hb Hab Ha53 Hb53. apply ofZ_of_repr; [nia|].
  rewrite mul_spec, !Prim2SF_ofZ by lia.
  destruct (Z.eq_dec a 0) as [->|Ha0]; [destruct b; try reflexivity; lia|].
  destruct (Z.eq_dec b 0) as [->|Hb0];
    [rewrite Z.mul_0_r; destruct a; try reflexivity; lia|].
  destruct (repr_finite a Ha0 ltac:(lia)) as (ma & ka & Era & Hka & Hma & Hda).
  destruct (repr_finite b Hb0 ltac:(lia)) as (mb & kb & Erb & Hkb & Hmb & Hdb).
  destruct (repr_finite (a * b) ltac:(nia) ltac:(nia)) as (mc & kc & Erc & Hkc & Hmc & Hdc).
  rewrite Era, Erb, Erc.
  replace (a <? 0) with false by (symmetry; apply Z.ltb_ge; lia).
  replace (b <? 0) with false by (symmetry; apply Z.ltb_ge; lia).
  replace (a * b <? 0) with false by (symmetry; apply Z.ltb_ge; nia).
  unfold SF64mul. cbn [SFmul xorb].
  rewrite Z.abs_eq in Hma, Hmb, Hmc by nia.
  pose proof (digits2_pos_bounds ma) as Hba. rewrite Hda in Hba.
  pose proof (digits2_pos_bounds mb) as Hbb. rewrite Hdb in Hbb.
  pose proof (digits2_pos_bounds mc) as Hbc. rewrite Hdc in Hbc.
  assert (Hn : 0 <= ka + kb - kc).
  { destruct (Z_le_gt_dec kc (ka + kb)) as [|Hgt]; [lia|exfalso].
    assert (Hpow : 2 ^ ka * 2 ^ kb <= 2 ^ kc)
      by (rewrite <- Z.pow_add_r by lia; apply Z.pow_le_mono_r; lia).
    assert (Hle : Zpos ma * Zpos mb <= Zpos mc).
    { rewrite Hma, Hmb, Hmc.
      transitivity (a * b * (2 ^ ka * 2 ^ kb)); [apply Z.eq_le_incl; ring|].
      apply Z.mul_le_mono_nonneg_l; [nia|exact Hpow]. }
    assert (Hbig : 2 ^ 52 * 2 ^ 52 <= Zpos ma * Zpos mb)
      by (apply Z.mul_le_mono_nonneg; simpl in Hba, Hbb |- *; lia).
    simpl in Hbig, Hbc. lia. }
  assert (HM : (ma * mb)%positive = Pos.shiftl mc (Z.to_N (ka + kb - kc))).
  { apply positive_of_value; [exact Hn|].
    rewrite Pos2Z.inj_mul, Hma, Hmb, Hmc.
    assert (Hpow : 2 ^ ka * 2 ^ kb = 2 ^ kc * 2 ^ (ka + kb - kc))
      by (rewrite <- !Z.pow_add_r by lia; f_equal; lia).
    transitivity (a * b * (2 ^ ka * 2 ^ kb)); [ring|rewrite Hpow; ring]. }
  rewrite HM, binary_round_aux_exact by (assumption || lia).
  f_equal. lia.
Qed.

Lemma ofZ_abs (z : Z) :
  Z.abs z < 2 ^ 53 -> abs (Number.ofZ z) = Number.ofZ (Z.abs z).
Proof.
  intros Hz. apply ofZ_of_repr; [lia|].
  rewrite abs_spec, Prim2SF_ofZ by exact Hz.
  destruct z; reflexivity.
Qed.

(** Numbers that hold integers compare as the integers do. *)
Lemma ofZ_ltb (a b : Z) :
  0 <= a < 2 ^ 53 -> 0 <= b < 2 ^ 53 ->
  (Number.ofZ a <? Number.ofZ b)%float = (a <? b).
Proof.
  intros Ha Hb. rewrite ltb_spec, !Prim2SF_ofZ by lia.
  destruct (Z.eq_dec a 0) as [->|Ha0]; destruct (Z.eq_dec b 0) as [->|Hb0].
  - reflexivity.
  - destruct b as [|p|p]; [congruence|reflexivity|lia].
  - destruct a as [|p|p]; [congruence|reflexivity|lia].
  - destruct (repr_finite a Ha0 ltac:(lia)) as (ma & ka & Era & Hka & Hma & Hda).
    destruct (repr_finite b Hb0 ltac:(lia)) as (mb & kb & Erb & Hkb & Hmb & Hdb).
    rewrite Era, Erb.
    replace (a <? 0) with false by (symmetry; apply Z.ltb_ge; lia).
    replace (b <? 0) with false by (symmetry; apply Z.ltb_ge; lia).
    rewrite Z.abs_eq in Hma, Hmb by lia.
    pose proof (digits2_pos_bounds ma) as Hba. rewrite Hda in Hba.
    pose proof (digits2_pos_bounds mb) as Hbb. rewrite Hdb in Hbb.
    simpl in Hba, Hbb.
    unfold SFltb. cbn [SFcompare].
    destruct (Z.compare_spec (- ka) (- kb)) as [Heq|Hlt|Hgt].
    + assert (ka = kb) by lia. subst kb.
      rewrite Pos.compare_cont_spec. cbn [Pos.switch_Eq].
      change ((ma ?= mb)%positive) with (Zpos ma ?= Zpos mb).
      rewrite Hma, Hmb.
      assert (H2 : 0 < 2 ^ ka) by (apply Z.pow_pos_nonneg; lia).
      destruct (Z.compare_spec (a * 2 ^ ka) (b * 2 ^ ka)), (Z.ltb_spec a b);
        reflexivity || nia.
    + (* a has the smaller exponent, hence fewer bits *)
      assert (Hpow : 2 ^ kb * 2 <= 2 ^ ka).
      { replace ka with (kb + 1 + (ka - kb - 1)) by lia.
        rewrite !Z.pow_add_r by lia.
        assert (0 < 2 ^ kb) by (apply Z.pow_pos_nonneg; lia).
        assert (0 < 2 ^ (ka - kb - 1)) by (apply Z.pow_pos_nonneg; lia).
        change (2 ^ 1) with 2. nia. }
      destruct (Z.ltb_spec a b); [reflexivity|exfalso]. nia.
    + assert (Hpow : 2 ^ ka * 2 <= 2 ^ kb).
      { replace kb with (ka + 1 + (kb - ka - 1)) by lia.
        rewrite !Z.pow_add_r by lia.
        assert (0 < 2 ^ ka) by (apply Z.pow_pos_nonneg; lia).
        assert (0 < 2 ^ (kb - ka - 1)) by (apply Z.pow_pos_nonneg; lia).
        change (2 ^ 1) with 2. nia. }
      destruct (Z.ltb_spec a b); [exfalso|reflexivity]. nia.
Qed.

Lemma ofZ_is_nan (z : Z) : Z.abs z < 2 ^ 53 -> is_nan (Number.ofZ z) = false.
Proof.
  intros Hz. unfold is_nan. rewrite eqb_spec, Prim2SF_ofZ by exact Hz.
  apply negb_false_iff.
  destruct z as [|p|p]; [reflexivity| |];
    unfold repr, canon, SFeqb; cbn [SFcompare];
    rewrite Z.compare_refl, Pos.compare_cont_refl; reflexivity.
Qed.

Lemma ofZ_is_infinity (z : Z) :
  Z.abs z < 2 ^ 53 -> is_infinity (Number.ofZ z) = false.
Proof.
  intros Hz. unfold is_infinity.
  rewrite ofZ_abs, eqb_spec, Prim2SF_ofZ by lia.
  replace (Prim2SF infinity) with (S754_infinity false) by reflexivity.
  destruct (Z.abs z); reflexivity.
Qed.

Lemma ofZ_integral (z : Z) :
  Z.abs z < 2 ^ 53 -> Number.integral (Number.ofZ z) = Some z.
Proof.
  intros Hz. unfold Number.integral. rewrite Prim2SF_ofZ by exact Hz.
  destruct (Z.eq_dec z 0) as [->|Hz0]; [reflexivity|].
  destruct (repr_finite z Hz0 Hz) as (m & k & Er & Hk & Hm & _).
  rewrite Er.
  assert (H2 : 0 < 2 ^ k) by (apply Z.pow_pos_nonneg; lia).
  assert (Hsigned : Number.signed (z <? 0) (Z.abs z) = z)
    by (unfold Number.signed; destruct (Z.ltb_spec z 0); lia).
  destruct (Z.leb_spec 0 (- k)).
  - assert (k = 0) by lia. subst k. rewrite Hm. simpl (2 ^ (- 0)).
    rewrite !Z.mul_1_r. rewrite Hsigned. reflexivity.
  - rewrite Z.opp_involutive, Hm, Z.mod_mul, Z.div_mul by lia.
    cbn [Z.eqb]. rewrite Hsigned. reflexivity.
Qed.

(** Number::toString prints an integer with its decimal digits. *)
Lemma Number_toString_ofZ (shortest_decimal : float -> string) (z : Z) :
  Z.abs z < 2 ^ 53 ->
  Number_toString shortest_decimal (Number.ofZ z) = Number.digits z.
Proof.
  intros Hz. unfold Number_toString.
  rewrite ofZ_is_nan, ofZ_is_infinity, ofZ_integral by exact Hz.
  replace (Z.abs z <? 10 ^ 21) with true; [reflexivity|].
  symmetry. apply Z.ltb_lt.
  assert (2 ^ 53 < 10 ^ 21) by reflexivity. lia.
Qed.

(** *** Division, as far as its integer part *)

Lemma div_eucl_div_mod (a b : Z) : Z.div_eucl a b = (a / b, a mod b).
Proof. unfold Z.div, Z.modulo. destruct (Z.div_eucl a b). reflexivity. Qed.

Lemma SFdiv_core_canonical (m1 m2 : positive) (k1 k2 : Z) :
  digits2_pos m1 = 53%positive -> digits2_pos m2 = 53%positive ->
  0 <= k1 <= 52 -> 0 <= k2 <= 52 ->
  SFdiv_core_binary prec emax (Zpos m1) (- k1) (Zpos m2) (- k2)
  = (Zpos m1 * 2 ^ 53 / Zpos m2, k2 - k1 - 53,
     new_location (Zpos m2) ((Zpos m1 * 2 ^ 53) mod Zpos m2)).
Proof.
  intros H1 H2 Hk1 Hk2. unfold SFdiv_core_binary. cbn [Zdigits2].
  rewrite H1, H2.
  replace (Z.min (fexp prec emax (53 + - k1 - (53 + - k2))) (- k1 - - k2))
    with (k2 - k1 - 53) by (unfold fexp, emin, prec, emax; lia).
  replace (- k1 - - k2 - (k2 - k1 - 53)) with 53 by lia.
  rewrite Z.shiftl_mul_pow2 by lia.
  rewrite div_eucl_div_mod. reflexivity.
Qed.

Lemma shr_record_of_loc_m (m : Z) (l : location) :
  shr_m (shr_record_of_loc m l) = m.
Proof. destruct l as [|[| |]]; reflexivity. Qed.

Lemma shr_1_m (mrs : shr_record) :
  0 <= shr_m mrs -> shr_m (shr_1 mrs) = shr_m mrs / 2.
Proof.
  destruct mrs as [m r s]. cbn [shr_m]. intros Hm.
  destruct m as [|[p|p|]|p]; cbn [shr_1 shr_m]; try reflexivity; try lia.
  - rewrite Pos2Z.inj_xI. apply Z.div_unique with (r := 1); lia.
  - rewrite Pos2Z.inj_xO. apply Z.div_unique with (r := 0); lia.
Qed.

Lemma round_nearest_even_cases (m : Z) (l : location) :
  round_nearest_even m l = m \/ round_nearest_even m l = m + 1.
Proof.
  destruct l as [|[| |]]; cbn [round_nearest_even]; auto.
  destruct (Z.even m); auto.
Qed.

(** The last step of a rounding, on a mantissa of 53 bits or on [2^53]. *)
Lemma binary_round_aux_last (s : bool) (m : Z) (e : Z) :
  2 ^ 52 <= m <= 2 ^ 53 -> -1074 <= e <= 970 ->
  exists mf ef,
    (let '(mrs, e') := shr_fexp prec emax m e loc_Exact in
     match shr_m mrs with
     | 0 => S754_zero s
     | Zpos m' => if e' <=? emax - prec then S754_finite s m' e'
                  else S754_infinity s
     | Zneg _ => S754_nan
     end) = S754_finite s mf ef
    /\ e <= ef <= e + 1 /\ Zpos mf * 2 ^ (ef - e) = m.
Proof.
  intros Hm He.
  destruct m as [|p|p]; try (simpl in Hm; lia).
  destruct (Z.eq_dec (Zpos p) (2 ^ 53)) as [Htop|Hlow].
  - injection Htop as ->.
    exists 4503599627370496%positive, (e + 1).
    unfold shr_fexp. cbn [Zdigits2].
    replace (fexp prec emax (Zpos (digits2_pos 9007199254740992) + e) - e) with 1
      by (cbn [digits2_pos Pos.succ]; unfold fexp, emin, prec, emax; lia).
    cbn [shr iter_pos shr_record_of_loc shr_1 shr_m].
    replace (e + 1 <=? emax - prec) with true
      by (symmetry; apply Z.leb_le; unfold emax, prec; lia).
    repeat split; try lia. replace (e + 1 - e) with 1 by lia. reflexivity.
  - exists p, e.
    assert (Hd : digits2_pos p = 53%positive).
    { apply Pos2Z.inj. apply digits2_pos_unique. simpl in Hm |- *. lia. }
    unfold shr_fexp. cbn [Zdigits2]. rewrite Hd.
    replace (fexp prec emax (53 + e) - e) with 0
      by (unfold fexp, emin, prec, emax; lia).
    cbn [shr shr_record_of_loc shr_m].
    replace (e <=? emax - prec) with true
      by (symmetry; apply Z.leb_le; unfold emax, prec; lia).
    repeat split; try lia. rewrite Z.sub_diag. simpl. lia.
Qed.

(** Rounding a quotient of two canonical mantissas moves it by less than
    one unit in the last place. *)
Lemma binary_round_aux_sandwich (s : bool) (q e : Z) (l : location) :
  2 ^ 52 <= q < 2 ^ 54 -> -1074 <= e <= 900 ->
  exists mf ef t,
    binary_round_aux prec emax s q e l = S754_finite s mf ef
    /\ 0 <= t <= 1 /\ (2 ^ 53 <= q -> t = 1)
    /\ e + t <= ef <= e + t + 1
    /\ q / 2 ^ t <= Zpos mf * 2 ^ (ef - (e + t)) <= q / 2 ^ t + 1.
Proof.
  intros Hq He.
  destruct q as [|p|p]; try (simpl in Hq; lia).
  unfold binary_round_aux.
  destruct (Z_lt_le_dec (Zpos p) (2 ^ 53)) as [Hlow|Hhigh].
  - assert (Hd : digits2_pos p = 53%positive)
      by (apply Pos2Z.inj, digits2_pos_unique; simpl in Hq |- *; lia).
    unfold shr_fexp at 1. cbn [Zdigits2]. rewrite Hd.
    replace (fexp prec emax (53 + e) - e) with 0
      by (unfold fexp, emin, prec, emax; lia).
    cbn [shr]. rewrite shr_record_of_loc_m.
    set (m2 := round_nearest_even (Zpos p) _).
    assert (Hm2 : m2 = Zpos p \/ m2 = Zpos p + 1) by apply round_nearest_even_cases.
    destruct (binary_round_aux_last s m2 e) as (mf & ef & Hres & Hef & Hval);
      [simpl in Hq |- *; lia|lia|].
    exists mf, ef, 0. rewrite Hres.
    split; [reflexivity|]. split; [lia|]. split; [lia|].
    rewrite Z.add_0_r. split; [lia|].
    rewrite Hval. simpl (2 ^ 0). rewrite Z.div_1_r. lia.
  - assert (Hd : digits2_pos p = 54%positive)
      by (apply Pos2Z.inj, digits2_pos_unique; simpl in Hq |- *; lia).
    unfold shr_fexp at 1. cbn [Zdigits2]. rewrite Hd.
    replace (fexp prec emax (54 + e) - e) with 1
      by (unfold fexp, emin, prec, emax; lia).
    cbn [shr iter_pos].
    rewrite shr_1_m by (rewrite shr_record_of_loc_m; lia).
    rewrite shr_record_of_loc_m.
    set (m2 := round_nearest_even (Zpos p / 2) _).
    assert (Hm2 : m2 = Zpos p / 2 \/ m2 = Zpos p / 2 + 1)
      by apply round_nearest_even_cases.
    assert (Hhalf : 2 ^ 52 <= Zpos p / 2 < 2 ^ 53)
      by (simpl in Hq, Hhigh |- *; Z.div_mod_to_equations; lia).
    destruct (binary_round_aux_last s m2 (e + 1)) as (mf & ef & Hres & Hef & Hval);
      [simpl in Hhalf |- *; lia|lia|].
    exists mf, ef, 1. rewrite Hres.
    split; [reflexivity|]. split; [lia|]. split; [lia|]. split; [lia|].
    rewrite Hval. change (2 ^ 1) with 2. lia.
Qed.

(** [Math.floor(N / D)] is the integer quotient, for a dividend below
    [2^52]: the division rounds by less than the distance from the quotient
    to the next integer. *)
Lemma floor_div_ofZ (N D : Z) :
  0 <= N < 2 ^ 52 -> 1 < D < 2 ^ 53 ->
  Number.floor (Number.ofZ N / Number.ofZ D) = Number.ofZ (N / D).
Proof.
  intros HN HD.
  assert (HQ : 0 <= N / D <= N).
  { split; [apply Z.div_pos; lia|].
    apply Z.div_le_upper_bound; nia. }
  unfold Number.floor.
  rewrite div_spec, !Prim2SF_ofZ by lia.
  destruct (Z.eq_dec N 0) as [->|HN0].
  { (* a zero dividend *)
    destruct (repr_finite D ltac:(lia) ltac:(lia)) as (mD & kD & ErD & _).
    replace (D <? 0) with false in ErD by (symmetry; apply Z.ltb_ge; lia).
    rewrite ErD. unfold SF64div. cbn [repr SFdiv xorb].
    rewrite Z.div_0_l by lia.
    apply ofZ_of_repr; [simpl; lia|].
    rewrite div_spec, !Prim2SF_ofZ by lia. rewrite ErD. reflexivity. }
  destruct (repr_finite N HN0 ltac:(lia)) as (mN & kN & ErN & HkN & HmN & HdN).
  destruct (repr_finite D ltac:(lia) ltac:(lia)) as (mD & kD & ErD & HkD & HmD & HdD).
  rewrite ErN, ErD.
  replace (N <? 0) with false by (symmetry; apply Z.ltb_ge; lia).
  replace (D <? 0) with false by (symmetry; apply Z.ltb_ge; lia).
  rewrite Z.abs_eq in HmN, HmD by lia.
  unfold SF64div. cbn [SFdiv xorb].
  rewrite SFdiv_core_canonical by assumption.
  pose proof (digits2_pos_bounds mN) as HbN. rewrite HdN in HbN.
  pose proof (digits2_pos_bounds mD) as HbD. rewrite HdD in HbD.
  simpl in HbN, HbD.
  set (q := Zpos mN * 2 ^ 53 / Zpos mD).
  assert (Hq : 2 ^ 52 <= q < 2 ^ 54).
  { unfold q. simpl (2 ^ 52). simpl (2 ^ 53). simpl (2 ^ 54). split.
    - apply Z.div_le_lower_bound; lia.
    - apply Z.div_lt_upper_bound; lia. }
  destruct (binary_round_aux_sandwich false q (kD - kN - 53)
              (new_location (Zpos mD) ((Zpos mN * 2 ^ 53) mod Zpos mD)) Hq ltac:(lia))
    as (mf & ef & t & Hres & Ht & Htop & Hef & Hsand).
  rewrite Hres. clear Hres.
  set (c := kN + 53 - kD).
  set (W := 2 ^ (c - t)).
  set (Q := N / D) in *.
  assert (H2kN : 2 <= 2 ^ kN).
  { destruct (Z.eq_dec kN 0) as [->|]; [simpl in HmN; lia|].
    change 2 with (2 ^ 1) at 1. apply Z.pow_le_mono_r; lia. }
  assert (H2kD : 0 < 2 ^ kD) by (apply Z.pow_pos_nonneg; lia).
  assert (HkN1 : 1 <= kN).
  { destruct (Z.eq_dec kN 0) as [->|]; [simpl in HmN; lia|lia]. }
  assert (HW : D < W).
  { unfold W, c.
    assert (Hle : 2 ^ (53 - kD) <= 2 ^ (kN + 53 - kD - t))
      by (apply Z.pow_le_mono_r; lia).
    assert (Hsplit : 2 ^ (53 - kD) * 2 ^ kD = 2 ^ 53)
      by (rewrite <- Z.pow_add_r by lia; f_equal; lia).
    simpl (2 ^ 53) in Hsplit. nia. }
  assert (Hct : 2 <= c - t).
  { destruct (Z_le_gt_dec 2 (c - t)) as [|Hsmall]; [assumption|exfalso].
    assert (Hle : W <= 2 ^ 1) by (unfold W; apply Z.pow_le_mono_r; lia).
    simpl in Hle. lia. }
  replace (0 <=? ef) with false by (symmetry; apply Z.leb_gt; unfold c in Hct; lia).
  cbn [Number.signed].
  set (g := ef - (kD - kN - 53 + t)) in *.
  assert (Hg : 0 <= g <= 1) by (unfold g; lia).
  set (m2 := Zpos mf * 2 ^ g) in *.
  assert (Hfloor : Zpos mf / 2 ^ (- ef) = m2 / W).
  { unfold m2, W.
    replace (c - t) with (- ef + g) by (unfold g, c; lia).
    rewrite Z.pow_add_r by (unfold g, c in *; lia).
    rewrite Z.div_mul_cancel_r; [reflexivity| |];
      apply Z.pow_nonzero; unfold g, c in *; lia. }
  rewrite Hfloor.
  assert (H2t : 0 < 2 ^ t) by (apply Z.pow_pos_nonneg; lia).
  assert (HWpos : 0 < W) by (unfold W; apply Z.pow_pos_nonneg; lia).
  assert (HqD : q = N * (W * 2 ^ t) / D).
  { unfold q. rewrite HmN, HmD.
    assert (Hnum : N * 2 ^ kN * 2 ^ 53 = N * (W * 2 ^ t) * 2 ^ kD).
    { unfold W. rewrite <- !Z.mul_assoc, <- !Z.pow_add_r by (unfold c in *; lia).
      do 2 f_equal. unfold c. lia. }
    rewrite Hnum, Z.div_mul_cancel_r by lia. reflexivity. }
  assert (HND : Q * D <= N < (Q + 1) * D).
  { unfold Q. pose proof (Z.div_mod N D ltac:(lia)).
    pose proof (Z.mod_pos_bound N D ltac:(lia)). nia. }
  assert (Hqlo : Q * (W * 2 ^ t) <= q).
  { rewrite HqD. apply Z.div_le_lower_bound; [lia|]. nia. }
  assert (Hqhi : q * D <= N * (W * 2 ^ t)).
  { rewrite HqD. rewrite Z.mul_comm. apply Z.mul_div_le. lia. }
  set (u := q / 2 ^ t) in *.
  assert (Hu : u * 2 ^ t <= q < (u + 1) * 2 ^ t).
  { unfold u. pose proof (Z.div_mod q (2 ^ t) ltac:(lia)).
    pose proof (Z.mod_pos_bound q (2 ^ t) ltac:(lia)). nia. }
  assert (Hulo : Q * W <= u).
  { apply Z.lt_succ_r. apply (Z.mul_lt_mono_pos_r (2 ^ t)); [exact H2t|].
    rewrite <- Z.mul_assoc. unfold Z.succ. lia. }
  assert (HuD : u * D <= N * W).
  { apply (Z.mul_le_mono_pos_r _ _ (2 ^ t)); [exact H2t|].
    replace (u * D * 2 ^ t) with (u * 2 ^ t * D) by ring.
    replace (N * W * 2 ^ t) with (N * (W * 2 ^ t)) by ring.
    transitivity (q * D); [|exact Hqhi].
    apply Z.mul_le_mono_nonneg_r; lia. }
  assert (HNW : N * W <= (Q + 1) * W * D - W).
  { replace ((Q + 1) * W * D - W) with (((Q + 1) * D - 1) * W) by ring.
    apply Z.mul_le_mono_nonneg_r; lia. }
  assert (Huhi : u + 1 < (Q + 1) * W).
  { destruct (Z_lt_le_dec (u + 1) ((Q + 1) * W)) as [|Hge]; [assumption|exfalso].
    assert (Hmul : ((Q + 1) * W - 1) * D <= u * D)
      by (apply Z.mul_le_mono_nonneg_r; lia).
    replace (((Q + 1) * W - 1) * D) with ((Q + 1) * W * D - D) in Hmul by ring.
    lia. }
  assert (Hm2Q : m2 / W = Q).
  { symmetry. apply Z.div_unique with (r := m2 - Q * W); lia. }
  rewrite Hm2Q.
  destruct (Z.eqb_spec Q 0) as [->|]; reflexivity.
Qed.

(** ** timeSpanToString on integers

    For two valid dates less than [2^52] ms apart every Number of the
    function holds the integer that the same steps give on integers. *)
Lemma timeSpanToString_integers
    (shortest_decimal : float -> string) (a b : Z) :
  Z.abs a < 2 ^ 53 -> Z.abs b < 2 ^ 53 -> Z.abs (a - b) < 2 ^ 52 ->
  timeSpanToString shortest_decimal (ValidDate a) (ValidDate b)
  = let diff := Z.abs (a - b) in
    let hours := diff / 3600000 in
    let diff := diff - hours * 3600000 in
    let minutes := diff / 60000 in
    let diff := diff - minutes * 60000 in
    let seconds := diff / 1000 in
    let mSeconds := diff - seconds * 1000 in
    let result := ("0" ++ Number.digits hours)%string in
    let result := (result ++ ":")%string in
    let result := (result ++ (if (minutes <? 10)%Z then "0" ++ Number.digits minutes
                              else Number.digits minutes))%string in
    let result := (result ++ ":")%string in
    let result := (result ++ (if (seconds <? 10)%Z then "0" ++ Number.digits seconds
                              else Number.digits seconds))%string in
    let result := (result ++ ".")%string in
    let result := if mSeconds <? 100 then (result ++ "0")%string else result in
    let result := if mSeconds <? 10 then (result ++ "0")%string else result in
    (result ++ Number.digits mSeconds)%string.
Proof.
  intros Ha Hb Hab.
  unfold timeSpanToString, getTime. cbv zeta.
  set (N := Z.abs (a - b)) in *.
  set (H := N / 3600000).
  set (N1 := N - H * 3600000).
  set (Mi := N1 / 60000).
  set (N2 := N1 - Mi * 60000).
  set (S := N2 / 1000).
  set (ms := N2 - S * 1000).
  assert (HN : 0 <= N < 2 ^ 52) by (unfold N in *; lia).
  assert (HH : 0 <= H /\ H * 3600000 <= N /\ 0 <= N1 < 3600000)
    by (unfold N1, H; Z.div_mod_to_equations; lia).
  assert (HMi : 0 <= Mi /\ Mi * 60000 <= N1 /\ 0 <= N2 < 60000)
    by (unfold N2, Mi; Z.div_mod_to_equations; lia).
  assert (HS : 0 <= S /\ S * 1000 <= N2 /\ 0 <= ms < 1000)
    by (unfold ms, S; Z.div_mod_to_equations; lia).
  assert (H52 : 2 ^ 52 = 4503599627370496) by reflexivity.
  assert (H53 : 2 ^ 53 = 9007199254740992) by reflexivity.
  replace (60 * 60 * 1000)%float with (Number.ofZ 3600000) by reflexivity.
  replace (60 * 1000)%float with (Number.ofZ 60000) by reflexivity.
  replace 1000%float with (Number.ofZ 1000) by reflexivity.
  replace 100%float with (Number.ofZ 100) by reflexivity.
  replace 10%float with (Number.ofZ 10) by reflexivity.
  rewrite (ofZ_sub a b), (ofZ_abs (a - b)) by lia. fold N.
  rewrite (floor_div_ofZ N 3600000) by lia. fold H.
  rewrite (ofZ_mul H 3600000), (ofZ_sub N (H * 3600000)) by lia. fold N1.
  rewrite (floor_div_ofZ N1 60000) by lia. fold Mi.
  rewrite (ofZ_mul Mi 60000), (ofZ_sub N1 (Mi * 60000)) by lia. fold N2.
  rewrite (floor_div_ofZ N2 1000) by lia. fold S.
  rewrite (ofZ_mul S 1000), (ofZ_sub N2 (S * 1000)) by lia. fold ms.
  rewrite !ofZ_ltb by lia.
  rewrite !Number_toString_ofZ by lia.
  rewrite first_conditional_always_taken.
  reflexivity.
Qed.

(** ** More on timeSpanToString *)

Lemma append_assoc (s1 s2 s3 : string) :
  ((s1 ++ s2) ++ s3 = s1 ++ (s2 ++ s3))%string.
Proof. induction s1 as [|c s1 IH]; cbn [append]; [reflexivity|]. rewrite IH. reflexivity. Qed.

(** X1. For two dates less than [2^52] ms (some 142 000 years) apart the
    string is ["0"], the whole hours of the span in decimal, [":"], the
    minutes and the seconds on two digits each, ["."] and the milliseconds on
    three digits; no rounding of the binary64 arithmetic reaches a field. *)
Theorem timeSpanToString_format
    (shortest_decimal : float -> string) (a b : Z) :
  - maxTime <= a <= maxTime -> - maxTime <= b <= maxTime ->
  Z.abs (a - b) < 2 ^ 52 ->
  timeSpanToString shortest_decimal (ValidDate a) (ValidDate b)
  = let span := Z.abs (a - b) in
    ("0" ++ Number.digits (span / msPerHour)
     ++ ":" ++ two_digits ((span / msPerMinute) mod 60)
     ++ ":" ++ two_digits ((span / msPerSecond) mod 60)
     ++ "." ++ three_digits (span mod msPerSecond))%string.
Proof.
  intros Ha Hb Hab. unfold maxTime in *.
  rewrite timeSpanToString_integers by (simpl; lia).
  cbv zeta. unfold msPerHour, msPerMinute, msPerSecond.
  set (N := Z.abs (a - b)).
  replace ((N - N / 3600000 * 3600000) / 60000) with ((N / 60000) mod 60)
    by (Z.div_mod_to_equations; lia).
  replace (N - N / 3600000 * 3600000 - (N / 60000) mod 60 * 60000)
    with (N mod 60000) by (Z.div_mod_to_equations; lia).
  replace (N mod 60000 / 1000) with ((N / 1000) mod 60)
    by (Z.div_mod_to_equations; lia).
  replace (N mod 60000 - (N / 1000) mod 60 * 1000) with (N mod 1000)
    by (Z.div_mod_to_equations; lia).
  unfold two_digits, three_digits.
  destruct ((N / 60000) mod 60 <? 10), ((N / 1000) mod 60 <? 10),
    (N mod 1000 <? 100), (N mod 1000 <? 10);
    rewrite ?append_assoc; cbn [append]; reflexivity.
Qed.

(** From the epoch to 03:00 UTC on 5 April 2016. *)
Lemma timeSpanToString_format_witness :
  timeSpanToString (fun _ => EmptyString) (ValidDate 1459825200000) (ValidDate 0)
  = let span := Z.abs (1459825200000 - 0) in
    ("0" ++ Number.digits (span / msPerHour)
     ++ ":" ++ two_digits ((span / msPerMinute) mod 60)
     ++ ":" ++ two_digits ((span / msPerSecond) mod 60)
     ++ "." ++ three_digits (span mod msPerSecond))%string.
Proof.
  apply (timeSpanToString_format (fun _ => EmptyString) 1459825200000 0);
    unfold maxTime; simpl; lia.
Defined.

(** X2. The span from a valid date to itself is ["00:00:00.000"]. *)
Theorem timeSpanToString_same_date
    (shortest_decimal : float -> string) (tv : Z) :
  - maxTime <= tv <= maxTime ->
  timeSpanToString shortest_decimal (ValidDate tv) (ValidDate tv)
  = "00:00:00.000"%string.
Proof.
  intros Htv.
  unfold maxTime in Htv.
  rewrite timeSpanToString_integers by (rewrite ?Z.sub_diag; simpl; lia).
  rewrite Z.sub_diag. reflexivity.
Qed.

Lemma timeSpanToString_same_date_witness :
  timeSpanToString (fun _ => EmptyString) (ValidDate 1459825200000)
    (ValidDate 1459825200000) = "00:00:00.000"%string.
Proof.
  apply (timeSpanToString_same_date (fun _ => EmptyString) 1459825200000).
  unfold maxTime. lia.
Defined.

(** NaN on either side of a subtraction gives NaN. *)
Lemma sub_nan (x : float) : (nan - x)%float = nan /\ (x - nan)%float = nan.
Proof.
  split; apply Prim2SF_inj; rewrite sub_spec;
    replace (Prim2SF nan) with S754_nan by reflexivity.
  - reflexivity.
  - destruct (Prim2SF x); reflexivity.
Qed.

(** X3. When either date is invalid the string is ["0NaN:NaN:NaN.NaN"],
    whatever the other date. *)
Theorem timeSpanToString_invalid
    (shortest_decimal : float -> string) (d : Date) :
  timeSpanToString shortest_decimal InvalidDate d = "0NaN:NaN:NaN.NaN"%string
  /\ timeSpanToString shortest_decimal d InvalidDate = "0NaN:NaN:NaN.NaN"%string.
Proof.
  unfold timeSpanToString. cbn [getTime]. unfold Number.NaN.
  destruct (sub_nan (getTime d)) as [Hl Hr]. rewrite Hl, Hr.
  split; evaluate.
Qed.

(** ** More on angleBetweenClockHands *)

(** X4. The angle is the same at the same clock time of any other day, and
    the seconds and milliseconds of the date do not count. *)
Theorem angle_same_every_day_and_second (tv k : Z) :
  angleBetweenClockHands (ValidDate (tv + k * msPerDay))
  = angleBetweenClockHands (ValidDate tv)
  /\ angleBetweenClockHands (ValidDate (tv - tv mod msPerMinute))
  = angleBetweenClockHands (ValidDate tv).
Proof.
  split; apply angle_depends_on_clock;
    unfold HourFromTime, MinFromTime, msPerDay, msPerHour, msPerMinute,
      HoursPerDay, MinutesPerHour;
    calendar.
Qed.

Lemma afternoon_hours_checked :
  all_from (fun h =>
    all_from (fun m =>
      PrimFloat.Leibniz.eqb
        (angleBetweenClockHands (ValidDate (MakeTime (h + 12) m 0 0)))
        (angleBetweenClockHands (ValidDate (MakeTime h m 0 0)))) 0 60) 1 11
  = true
  /\ all_from (fun m =>
       negb (PrimFloat.Leibniz.eqb
               (angleBetweenClockHands (ValidDate (MakeTime 12 m 0 0)))
               (angleBetweenClockHands (ValidDate (MakeTime 0 m 0 0))))) 0 60
     = true.
Proof. split; evaluate. Qed.

Lemma clock_twelve_hours_later (tv : Z) :
  HourFromTime tv < 12 ->
  HourFromTime (tv + 12 * msPerHour) = HourFromTime tv + 12
  /\ MinFromTime (tv + 12 * msPerHour) = MinFromTime tv.
Proof.
  unfold HourFromTime, MinFromTime, msPerHour, msPerMinute, HoursPerDay,
    MinutesPerHour.
  intros Hh. split; calendar.
Qed.

(** X5. For the hours 1 to 11 the angle twelve hours later is the same:
    13:00 to 23:59 read as 01:00 to 11:59. *)
Theorem angle_afternoon_as_morning (tv : Z) :
  1 <= HourFromTime tv <= 11 ->
  angleBetweenClockHands (ValidDate (tv + 12 * msPerHour))
  = angleBetweenClockHands (ValidDate tv).
Proof.
  intros Hhour.
  destruct afternoon_hours_checked as [Hsame _].
  destruct (clock_range tv) as [Hh Hm].
  destruct (clock_twelve_hours_later tv ltac:(lia)) as [Eh Em].
  rewrite (same_clock_first_day (tv + 12 * msPerHour)),
    (same_clock_first_day tv), Eh, Em.
  pose proof (all_from_spec _ _ _ Hsame (HourFromTime tv) ltac:(simpl; lia)) as Hrow.
  cbv beta in Hrow.
  pose proof (all_from_spec _ _ _ Hrow (MinFromTime tv) ltac:(simpl; lia)) as Hcell.
  cbv beta in Hcell. apply FloatAxioms.Leibniz.eqb_spec in Hcell. exact Hcell.
Qed.

(** 01:30 and 13:30 on the first day. *)
Lemma angle_afternoon_as_morning_witness :
  angleBetweenClockHands (ValidDate (5400000 + 12 * msPerHour))
  = angleBetweenClockHands (ValidDate 5400000).
Proof.
  apply (angle_afternoon_as_morning 5400000).
  vm_compute. split; discriminate.
Defined.

(** X6. The hour 12 is not read as the hour 0 ([hours > 12] leaves it):
    from 12:00 to 12:59 the angle is never the one of twelve hours
    earlier. *)
Theorem angle_noon_hour_not_as_midnight_hour (tv : Z) :
  HourFromTime tv = 0 ->
  angleBetweenClockHands (ValidDate (tv + 12 * msPerHour))
  <> angleBetweenClockHands (ValidDate tv).
Proof.
  intros Hhour.
  destruct afternoon_hours_checked as [_ Hdiffer].
  destruct (clock_range tv) as [Hh Hm].
  destruct (clock_twelve_hours_later tv ltac:(lia)) as [Eh Em].
  rewrite (same_clock_first_day (tv + 12 * msPerHour)),
    (same_clock_first_day tv), Eh, Em, Hhour.
  pose proof (all_from_spec _ _ _ Hdiffer (MinFromTime tv) ltac:(simpl; lia)) as Hcell.
  cbv beta in Hcell. apply negb_true_iff in Hcell.
  intros Heq. apply FloatAxioms.Leibniz.eqb_spec in Heq.
  change (0 + 12) with 12 in Heq. congruence.
Qed.

(** 00:30 and 12:30 on the first day. *)
Lemma angle_noon_hour_not_as_midnight_hour_witness :
  angleBetweenClockHands (ValidDate (1800000 + 12 * msPerHour))
  <> angleBetweenClockHands (ValidDate 1800000).
Proof. apply (angle_noon_hour_not_as_midnight_hour 1800000). evaluate. Defined.

Lemma midnight_checked :
  all_from (fun h =>
    all_from (fun m =>
      Bool.eqb (angleBetweenClockHands (ValidDate (MakeTime h m 0 0)) == 0)%js
               ((h =? 0) && (m =? 0))) 0 60) 0 24 = true.
Proof. evaluate. Qed.

(** X7. The result is zero at 00:00 UTC and at no other clock time (12:00
    included). *)
Theorem angle_zero_only_at_midnight (tv : Z) :
  (angleBetweenClockHands (ValidDate tv) == 0)%js = true
  <-> atUTC 0 0 (ValidDate tv).
Proof.
  rewrite same_clock_first_day. cbn [atUTC].
  destruct (clock_range tv) as [Hh Hm].
  pose proof (all_from_spec _ _ _ midnight_checked
                (HourFromTime tv) ltac:(simpl; lia)) as Hrow.
  cbv beta in Hrow.
  pose proof (all_from_spec _ _ _ Hrow (MinFromTime tv) ltac:(simpl; lia)) as Hcell.
  cbv beta in Hcell. apply Bool.eqb_prop in Hcell. rewrite Hcell.
  rewrite andb_true_iff, !Z.eqb_eq. reflexivity.
Qed.

(** ** More on isLeapYear *)

Lemma YearFromTime_unique (t y : Z) :
  TimeFromYear y <= t < TimeFromYear (y + 1) -> YearFromTime t = y.
Proof.
  intros [Hlo Hhi].
  pose proof (YearFromTime_largest t y Hlo) as Hle.
  destruct (Z.eq_dec (YearFromTime t) y) as [|Hne]; [assumption|exfalso].
  pose proof (YearFromTime_spec t) as [Hspec _].
  pose proof (DayFromYear_mono (y + 1) (YearFromTime t) ltac:(lia)) as Hmono.
  unfold TimeFromYear, msPerDay in *. lia.
Qed.

(** The days of a year in the calendar of Date objects. *)
Lemma year_length (Y : Z) :
  DayFromYear (Y + 1) - DayFromYear Y
  = if (Y mod 4 =? 0) && (negb (Y mod 100 =? 0) || (Y mod 400 =? 0))
    then 366 else 365.
Proof.
  unfold DayFromYear.
  destruct (Z.eqb_spec (Y mod 4) 0), (Z.eqb_spec (Y mod 100) 0),
    (Z.eqb_spec (Y mod 400) 0); cbn [andb orb negb];
    Z.div_mod_to_equations; lia.
Qed.

(** isLeapYear as a test on the integer year. *)
Lemma isLeapYear_of_year (LocalTZA : Z -> Z) (tv : Z) :
  Z.abs (YearFromTime (LocalTime LocalTZA tv)) < 2 ^ 53 ->
  isLeapYear LocalTZA (ValidDate tv)
  = let Y := YearFromTime (LocalTime LocalTZA tv) in
    (Y mod 4 =? 0) && (negb (Y mod 100 =? 0) || (Y mod 400 =? 0)).
Proof. intros HY. unfold isLeapYear, getFullYear. apply leap_test_ofZ, HY. Qed.

(** X8. isLeapYear agrees with the calendar of Date objects: it answers true
    exactly for the dates whose local year has 366 days there, and false
    exactly when the year has 365. *)
Theorem isLeapYear_iff_366_days (LocalTZA : Z -> Z) (date : Date) (Y : Z) :
  FullYear LocalTZA date = Some Y ->
  Z.abs Y < 2 ^ 53 ->
  (isLeapYear LocalTZA date = true <-> DayFromYear (Y + 1) - DayFromYear Y = 366)
  /\ (isLeapYear LocalTZA date = false <-> DayFromYear (Y + 1) - DayFromYear Y = 365).
Proof.
  intros HYear HY.
  destruct date as [|tv]; [discriminate|].
  cbn [FullYear] in HYear. injection HYear as HYear.
  rewrite year_length, isLeapYear_of_year by (rewrite HYear; exact HY).
  cbv zeta. rewrite HYear.
  destruct ((Y mod 4 =? 0) && (negb (Y mod 100 =? 0) || (Y mod 400 =? 0)));
    split; split; (reflexivity || discriminate || lia).
Qed.

(** 1 February 1900, on a host whose local time is UTC. *)
Lemma isLeapYear_iff_366_days_witness :
  let utc := fun _ : Z => 0 in
  let date := ValidDate (MakeDate (MakeDay 1900 1 1) 0) in
  (isLeapYear utc date = true <-> DayFromYear (1900 + 1) - DayFromYear 1900 = 366)
  /\ (isLeapYear utc date = false <-> DayFromYear (1900 + 1) - DayFromYear 1900 = 365).
Proof.
  apply (isLeapYear_iff_366_days (fun _ => 0)
           (ValidDate (MakeDate (MakeDay 1900 1 1) 0)) 1900); evaluate.
Defined.

(** X9. The year is the local one: at the first instant (UTC) of a leap
    year the answer is true on a host at UTC and false on every host whose
    clock is behind UTC, where the old year is not over. *)
Theorem isLeapYear_west_of_Greenwich (LocalTZA : Z -> Z) (Y : Z) :
  spec_leap Y ->
  Z.abs Y < 2 ^ 52 ->
  (forall t, - msPerDay <= LocalTZA t < 0) ->
  isLeapYear (fun _ => 0) (ValidDate (TimeFromYear Y)) = true
  /\ isLeapYear LocalTZA (ValidDate (TimeFromYear Y)) = false.
Proof.
  intros [H4 Hcent] HY Hwest.
  assert (Hhere : YearFromTime (LocalTime (fun _ => 0) (TimeFromYear Y)) = Y).
  { apply YearFromTime_unique. unfold LocalTime.
    pose proof (year_length Y) as Hlen.
    destruct ((Y mod 4 =? 0) && _) in Hlen; unfold TimeFromYear, msPerDay; lia. }
  assert (Hwest' : YearFromTime (LocalTime LocalTZA (TimeFromYear Y)) = Y - 1).
  { apply YearFromTime_unique. unfold LocalTime.
    specialize (Hwest (TimeFromYear Y)).
    pose proof (year_length (Y - 1)) as Hlen.
    replace (Y - 1 + 1) with Y in * by lia.
    destruct ((_ mod 4 =? 0) && _) in Hlen; unfold TimeFromYear, msPerDay in *; lia. }
  rewrite !isLeapYear_of_year by (rewrite ?Hhere, ?Hwest'; lia).
  cbv zeta. rewrite Hhere, Hwest'.
  split.
  - apply andb_true_iff. split; [apply Z.eqb_eq; exact H4|].
    apply orb_true_iff. destruct Hcent as [Hc|Hc].
    + left. apply negb_true_iff, Z.eqb_neq. exact Hc.
    + right. apply Z.eqb_eq. exact Hc.
  - apply andb_false_iff. left. apply Z.eqb_neq.
    Z.div_mod_to_equations. lia.
Qed.

(** New Year 2012 at UTC-5. *)
Lemma isLeapYear_west_of_Greenwich_witness :
  isLeapYear (fun _ => 0) (ValidDate (TimeFromYear 2012)) = true
  /\ isLeapYear (fun _ => -18000000) (ValidDate (TimeFromYear 2012)) = false.
Proof.
  apply (isLeapYear_west_of_Greenwich (fun _ => -18000000) 2012).
  - unfold spec_leap. split; [reflexivity|left; discriminate].
  - evaluate.
  - intros t. unfold msPerDay. lia.
Defined.

(** ** More on the parsers *)

Lemma ofZ_truncate (z : Z) :
  Z.abs z < 2 ^ 53 -> Number.truncate (Number.ofZ z) = Some z.
Proof.
  intros Hz. unfold Number.truncate. rewrite Prim2SF_ofZ by exact Hz.
  destruct (Z.eq_dec z 0) as [->|Hz0]; [reflexivity|].
  destruct (repr_finite z Hz0 Hz) as (m & k & Er & Hk & Hm & _).
  rewrite Er. f_equal.
  assert (H2 : 0 < 2 ^ k) by (apply Z.pow_pos_nonneg; lia).
  assert (Hval : (if 0 <=? - k then Zpos m * 2 ^ (- k) else Zpos m / 2 ^ (- - k))
                 = Z.abs z).
  { destruct (Z.leb_spec 0 (- k)).
    - assert (k = 0) by lia. subst k. rewrite Hm. simpl. lia.
    - rewrite Z.opp_involutive, Hm, Z.div_mul by lia. reflexivity. }
  rewrite Hval. unfold Number.signed. destruct (Z.ltb_spec z 0); lia.
Qed.

(** TimeClip on a Number that holds an integer. *)
Lemma TimeClip_ofZ (tv : Z) :
  Z.abs tv < 2 ^ 53 ->
  TimeClip (Number.ofZ tv)
  = if Z.abs tv <=? maxTime then ValidDate tv else InvalidDate.
Proof.
  intros Htv. unfold TimeClip.
  rewrite ofZ_is_nan, ofZ_is_infinity, ofZ_abs, ofZ_truncate by exact Htv.
  cbn [orb].
  replace 8.64e15%float with (Number.ofZ maxTime) by reflexivity.
  rewrite ofZ_ltb by (unfold maxTime; simpl; lia).
  rewrite Z.leb_antisym. destruct (maxTime <? Z.abs tv); reflexivity.
Qed.

(** X10. Neither parser asks for a string: given a Number that holds an
    integer, both return the date with that time value when it is at most
    8.64e15 ms from the epoch, and the invalid date beyond. *)
Theorem parsers_clip_numbers (Date_parse : string -> float) (tv : Z) :
  Z.abs tv < 2 ^ 53 ->
  parseDataFromRfc2822 Date_parse (VNumber (Number.ofZ tv))
  = Normal (if Z.abs tv <=? maxTime then ValidDate tv else InvalidDate)
  /\ parseDataFromIso8601 Date_parse (VNumber (Number.ofZ tv))
  = Normal (if Z.abs tv <=? maxTime then ValidDate tv else InvalidDate).
Proof.
  intros Htv. unfold parseDataFromRfc2822, parseDataFromIso8601, new_Date.
  rewrite TimeClip_ofZ by exact Htv. split; reflexivity.
Qed.

(** One millisecond beyond the range. *)
Lemma parsers_clip_numbers_witness :
  parseDataFromRfc2822 format_only_parse (VNumber (Number.ofZ 8640000000000001))
  = Normal (if Z.abs 8640000000000001 <=? maxTime
            then ValidDate 8640000000000001 else InvalidDate)
  /\ parseDataFromIso8601 format_only_parse (VNumber (Number.ofZ 8640000000000001))
  = Normal (if Z.abs 8640000000000001 <=? maxTime
            then ValidDate 8640000000000001 else InvalidDate).
Proof.
  apply (parsers_clip_numbers format_only_parse 8640000000000001).
  simpl. lia.
Defined.

(** X11. A date's time value, passed to either parser, gives the date
    back; the invalid date included, through NaN. *)
Theorem parsers_round_trip_getTime (Date_parse : string -> float) (d : Date) :
  wf_date d ->
  parseDataFromRfc2822 Date_parse (VNumber (getTime d)) = Normal d
  /\ parseDataFromIso8601 Date_parse (VNumber (getTime d)) = Normal d.
Proof.
  intros Hwf. destruct d as [|tv].
  - split; reflexivity.
  - cbn [wf_date getTime] in *. unfold maxTime in Hwf.
    unfold parseDataFromRfc2822, parseDataFromIso8601, new_Date.
    rewrite TimeClip_ofZ by (simpl; lia).
    replace (Z.abs tv <=? maxTime) with true
      by (symmetry; apply Z.leb_le; unfold maxTime; lia).
    split; reflexivity.
Qed.

(** The earliest date. *)
Lemma parsers_round_trip_getTime_witness :
  parseDataFromRfc2822 format_only_parse (VNumber (getTime (ValidDate (- maxTime))))
  = Normal (ValidDate (- maxTime))
  /\ parseDataFromIso8601 format_only_parse (VNumber (getTime (ValidDate (- maxTime))))
  = Normal (ValidDate (- maxTime)).
Proof.
  apply (parsers_round_trip_getTime format_only_parse (ValidDate (- maxTime))).
  unfold wf_date, maxTime. lia.
Defined.

(** Every Date that TimeClip makes is well formed. *)
Lemma TimeClip_wf (time : float) : wf_date (TimeClip time).
Proof.
  unfold TimeClip.
  destruct (is_nan time || is_infinity time); [exact I|].
  destruct (abs time > 8.64e15)%js eqn:Hbig; [exact I|].
  destruct (Number.truncate time) as [tv|] eqn:Htr; [|exact I].
  cbn [wf_date]. unfold maxTime.
  rewrite ltb_spec, abs_spec in Hbig.
  replace (Prim2SF 8.64e15) with (S754_finite false 8640000000000000 0) in Hbig
    by reflexivity.
  unfold Number.truncate in Htr.
  pose proof (Prim2SF_valid time) as Hvalid.
  destruct (Prim2SF time) as [s|s| |s m e]; try discriminate.
  - injection Htr as <-. lia.
  - injection Htr as <-.
    cbn [valid_binary] in Hvalid. unfold bounded, canonical_mantissa in Hvalid.
    apply andb_true_iff in Hvalid. destruct Hvalid as [Hcanon _].
    apply Z.eqb_eq in Hcanon.
    pose proof (digits2_pos_bounds m) as [_ Hm].
    assert (Hm53 : Zpos m < 2 ^ 53).
    { eapply Z.lt_le_trans; [exact Hm|].
      apply Z.pow_le_mono_r; [lia|].
      unfold fexp, emin, prec, emax in Hcanon. lia. }
    simpl in Hm53.
    unfold SFltb in Hbig. cbn [SFabs SFcompare] in Hbig.
    match goal with
    | |- _ <= Number.signed s ?v <= _ => set (mag := v)
    end.
    assert (Hmag : 0 <= mag <= 8640000000000000).
    { unfold mag. revert Hbig.
      destruct (Z.compare_spec 0 e) as [Heq|Hlt|Hgt]; intros Hbig;
        [subst e| discriminate |].
      - rewrite Pos.compare_cont_spec in Hbig. cbn [Pos.switch_Eq] in Hbig.
        change ((8640000000000000 ?= m)%positive)
          with (8640000000000000 ?= Zpos m) in Hbig.
        revert Hbig.
        destruct (Z.compare_spec 8640000000000000 (Zpos m)); intros Hbig;
          try discriminate; simpl; lia.
      - replace (0 <=? e) with false by (symmetry; apply Z.leb_gt; lia).
        assert (2 <= 2 ^ (- e)).
        { change 2 with (2 ^ 1) at 1. apply Z.pow_le_mono_r; lia. }
        split; [apply Z.div_pos; lia|].
        assert (Zpos m / 2 ^ (- e) <= Zpos m / 2)
          by (apply Z.div_le_compat_l; lia).
        assert (Zpos m / 2 < 4503599627370496)
          by (apply Z.div_lt_upper_bound; lia).
        lia. }
    unfold Number.signed. destruct s; lia.
Qed.

(** X12. Whatever the value and whatever the engine's parser returns, a
    date that a parser returns is invalid or within 8.64e15 ms of the
    epoch. *)
Theorem parsers_return_well_formed_dates
    (Date_parse : string -> float) (value : Value) (d : Date) :
  parseDataFromRfc2822 Date_parse value = Normal d
  \/ parseDataFromIso8601 Date_parse value = Normal d ->
  wf_date d.
Proof.
  unfold parseDataFromRfc2822, parseDataFromIso8601, new_Date.
  intros [H|H]; destruct value; try discriminate;
    injection H as <-; apply TimeClip_wf.
Qed.

Lemma parsers_return_well_formed_dates_witness :
  wf_date (ValidDate 1453190857000).
Proof.
  apply (parsers_return_well_formed_dates format_only_parse
           (VString "2016-01-19T16:07:37+08:00") (ValidDate 1453190857000)).
  left. evaluate.
Defined.

(** X13. The date parsed from a string that the engine does not recognise
    makes isLeapYear answer false and angleBetweenClockHands return NaN:
    neither fails. *)
Theorem unrecognised_string_downstream
    (Date_parse : string -> float) (LocalTZA : Z -> Z) (s : string) (d : Date) :
  is_nan (Date_parse s) = true ->
  parseDataFromRfc2822 Date_parse (VString s) = Normal d ->
  isLeapYear LocalTZA d = false
  /\ is_nan (angleBetweenClockHands d) = true.
Proof.
  intros Hnan Hd.
  unfold parseDataFromRfc2822, new_Date, TimeClip in Hd.
  rewrite Hnan in Hd. cbn [orb] in Hd. injection Hd as <-.
  split; evaluate.
Qed.

Lemma unrecognised_string_downstream_witness :
  isLeapYear (fun _ => 0) InvalidDate = false
  /\ is_nan (angleBetweenClockHands InvalidDate) = true.
Proof.
  apply (unrecognised_string_downstream format_only_parse (fun _ => 0)
           "December 17, 1995 03:24:00" InvalidDate); evaluate.
Defined.

(** ** Strings of the Date Time String Format *)

Lemma bind_Some {A B : Type} (o : option A) (k : A -> option B) (b : B) :
  Parse.bind o k = Some b -> exists a, o = Some a /\ k a = Some b.
Proof. destruct o as [a|]; [|discriminate]. intros H. exists a. auto. Qed.

Lemma digit_bound (c : ascii) (d : Z) : Parse.digit c = Some d -> 0 <= d <= 9.
Proof.
  unfold Parse.digit.
  destruct (Z.leb_spec 48 (Z.of_N (N_of_ascii c))),
    (Z.leb_spec (Z.of_N (N_of_ascii c)) 57); cbn [andb]; try discriminate.
  intros Hd. injection Hd as <-. lia.
Qed.

(** [k] digits read after [acc] give a number that starts with [acc]. *)
Lemma number_bound (k : nat) :
  forall acc s v rest,
    Parse.number k acc s = Some (v, rest) ->
    acc * 10 ^ Z.of_nat k <= v < (acc + 1) * 10 ^ Z.of_nat k.
Proof.
  induction k as [|k IH]; intros acc s v rest Hnum.
  - cbn [Parse.number] in Hnum. injection Hnum as <- _. simpl. lia.
  - cbn [Parse.number] in Hnum.
    destruct s as [|c s]; [discriminate|].
    apply bind_Some in Hnum. destruct Hnum as (d & Hd & Hnum).
    apply digit_bound in Hd. apply IH in Hnum.
    rewrite Nat2Z.inj_succ, Z.pow_succ_r by lia.
    assert (0 < 10 ^ Z.of_nat k) by (apply Z.pow_pos_nonneg; lia).
    nia.
Qed.

Lemma guard_Some (b : bool) (u : unit) : Parse.guard b = Some u -> b = true.
Proof. destruct b; [reflexivity|discriminate]. Qed.

Lemma DaysBeforeMonth_bound (leap : bool) (m : Z) :
  0 <= DaysBeforeMonth leap m <= 335.
Proof.
  unfold DaysBeforeMonth.
  assert (Hnth : 0 <= nth (Z.to_nat m)
                        [0; 31; 59; 90; 120; 151; 181; 212; 243; 273; 304; 334] 0
                 <= 334).
  { generalize (Z.to_nat m) as n. intros n.
    do 12 (destruct n as [|n]; [simpl; lia|]).
    simpl. destruct n; lia. }
  destruct (leap && (2 <=? m)); lia.
Qed.

Lemma DaysInMonth_bound (leap : bool) (m : Z) : DaysInMonth leap m <= 31.
Proof.
  unfold DaysInMonth.
  assert (Hnth : nth (Z.to_nat m) [31; 28; 31; 30; 31; 30; 31; 31; 30; 31; 30; 31] 0
                 + (if leap && (m =? 1) then 1 else 0) <= 31).
  { destruct (Z.eqb_spec m 1) as [->|Hm].
    - destruct leap; simpl; lia.
    - rewrite andb_false_r, Z.add_0_r.
      generalize (Z.to_nat m) as n. intros n.
      do 12 (destruct n as [|n]; [simpl; lia|]).
      simpl. destruct n; lia. }
  exact Hnth.
Qed.

Lemma iso8601_offset_bound (s : string) (offset : Z) :
  iso8601_offset s = Some offset -> -1439 <= offset <= 1439.
Proof.
  unfold iso8601_offset. destruct s as [|c s]; [discriminate|].
  destruct (Ascii.eqb c "Z").
  - intros H. apply bind_Some in H. destruct H as (_ & _ & H).
    injection H as <-. lia.
  - intros H.
    apply bind_Some in H. destruct H as (sign & Hsign & H).
    apply bind_Some in H. destruct H as ([hh rest1] & Hhh & H).
    apply bind_Some in H. destruct H as (rest2 & _ & H).
    apply bind_Some in H. destruct H as ([mm rest3] & Hmm & H).
    apply bind_Some in H. destruct H as (u & Hguard & H).
    injection H as <-.
    apply guard_Some in Hguard.
    apply andb_true_iff in Hguard. destruct Hguard as [Hguard Hm59].
    apply andb_true_iff in Hguard. destruct Hguard as [_ Hh23].
    apply Z.leb_le in Hm59, Hh23.
    apply number_bound in Hhh, Hmm. simpl in Hhh, Hmm.
    assert (Hs : sign = 1 \/ sign = -1).
    { destruct (Ascii.eqb c "+"); [injection Hsign as <-; auto|].
      destruct (Ascii.eqb c "-"); [injection Hsign as <-; auto|discriminate]. }
    destruct Hs as [-> | ->]; lia.
Qed.

(** A string of the format denotes a time value in the range of Date. *)
Lemma iso8601_time_range (s : string) (tv : Z) :
  iso8601_time s = Some tv -> - maxTime <= tv <= maxTime.
Proof.
  unfold iso8601_time. intros H.
  apply bind_Some in H. destruct H as ([year s1] & Hyear & H).
  apply bind_Some in H. destruct H as (s2 & _ & H).
  apply bind_Some in H. destruct H as ([month s3] & Hmonth & H).
  apply bind_Some in H. destruct H as (s4 & _ & H).
  apply bind_Some in H. destruct H as ([day s5] & Hday & H).
  apply bind_Some in H. destruct H as (s6 & _ & H).
  apply bind_Some in H. destruct H as ([hour s7] & Hhour & H).
  apply bind_Some in H. destruct H as (s8 & _ & H).
  apply bind_Some in H. destruct H as ([minute s9] & Hminute & H).
  apply bind_Some in H. destruct H as (s10 & _ & H).
  apply bind_Some in H. destruct H as ([second s11] & Hsecond & H).
  apply bind_Some in H. destruct H as ([ms s12] & Hms & H).
  apply bind_Some in H. destruct H as (offset & Hoffset & H).
  apply bind_Some in H. destruct H as (u & Hguard & H).
  injection H as <-.
  apply guard_Some in Hguard.
  repeat (apply andb_true_iff in Hguard; destruct Hguard as [Hguard ?]).
  repeat match goal with
         | Hle : (_ <=? _) = true |- _ => apply Z.leb_le in Hle
         end.
  apply number_bound in Hyear, Hmonth, Hday, Hhour, Hminute, Hsecond.
  simpl in Hyear, Hmonth, Hday, Hhour, Hminute, Hsecond.
  assert (Hms' : 0 <= ms <= 999).
  { unfold iso8601_fraction in Hms.
    destruct (Parse.literal "." s11).
    - apply number_bound in Hms. simpl in Hms. lia.
    - injection Hms as <- _. lia. }
  apply iso8601_offset_bound in Hoffset.
  pose proof (DaysInMonth_bound (InLeapYear year) (month - 1)) as Hdim.
  pose proof (DaysBeforeMonth_bound (InLeapYear (year + (month - 1) / 12))
                ((month - 1) mod 12)) as Hdbm.
  unfold MakeDate, MakeDay, MakeTime, DayFromYear, maxTime, msPerDay, msPerHour,
    msPerMinute, msPerSecond.
  set (dbm := DaysBeforeMonth _ _) in *.
  replace ((month - 1) / 12) with 0 by (Z.div_mod_to_equations; lia).
  Z.div_mod_to_equations. lia.
Qed.

(** X14. On an engine that reads the Date Time String Format as the
    standard defines it, a string of the format never gives the invalid
    date: both parsers return the valid date of the instant it denotes. *)
Theorem parsers_on_format_strings
    (Date_parse : string -> float) (s : string) (tv : Z) :
  parses_date_time_format Date_parse ->
  iso8601_time s = Some tv ->
  parseDataFromIso8601 Date_parse (VString s) = Normal (ValidDate tv)
  /\ parseDataFromRfc2822 Date_parse (VString s) = Normal (ValidDate tv).
Proof.
  intros Hconf Hs.
  pose proof (iso8601_time_range s tv Hs) as Hrange. unfold maxTime in Hrange.
  unfold parseDataFromIso8601, parseDataFromRfc2822, new_Date.
  rewrite (Hconf s tv Hs), TimeClip_ofZ by (simpl; lia).
  replace (Z.abs tv <=? maxTime) with true
    by (symmetry; apply Z.leb_le; unfold maxTime; lia).
  split; reflexivity.
Qed.

(** The last millisecond of the year 9999, at the offset furthest behind
    UTC. *)
Lemma parsers_on_format_strings_witness :
  parseDataFromIso8601 format_only_parse (VString "9999-12-31T23:59:59.999-23:59")
  = Normal (ValidDate 253402387139999)
  /\ parseDataFromRfc2822 format_only_parse (VString "9999-12-31T23:59:59.999-23:59")
  = Normal (ValidDate 253402387139999).
Proof.
  apply (parsers_on_format_strings format_only_parse
           "9999-12-31T23:59:59.999-23:59" 253402387139999).
  - exact format_only_parse_conforms.
  - evaluate.
Defined.

(** ** parseDataFromIso8601 and the offsets of the format *)

(** The instant of a string of the format, from its fields. *)
Lemma format_instant_of_fields (s : string) (local offset : Z) :
  format_fields s = Some (local, offset) ->
  Z.abs (local - offset * msPerMinute) <= maxTime ->
  format_instant s = Some (local - offset * msPerMinute).
Proof.
  intros Hfields Hrange. unfold format_instant, instant_of_fields.
  rewrite Hfields. cbn [Parse.bind].
  replace (Z.abs (local - offset * msPerMinute) <=? maxTime) with true
    by (symmetry; apply Z.leb_le; exact Hrange).
  reflexivity.
Qed.

(** What a conforming engine makes of a string of the format. *)
Lemma parse_format_string (Date_parse : string -> float) (s : string) (tv : Z) :
  conforms_to_format Date_parse ->
  format_instant s = Some tv ->
  parseDataFromIso8601 Date_parse (VString s) = Normal (ValidDate tv).
Proof.
  intros Hconf Hs.
  assert (Hrange : Z.abs tv <= maxTime).
  { unfold format_instant, instant_of_fields in Hs.
    destruct (format_fields s) as [[local offset]|]; [|discriminate].
    cbn [Parse.bind] in Hs.
    destruct (Z.leb_spec (Z.abs (local - offset * msPerMinute)) maxTime);
      [|discriminate].
    cbn [Parse.guard Parse.bind] in Hs. injection Hs as <-. assumption. }
  unfold parseDataFromIso8601, new_Date.
  rewrite (Hconf s tv Hs), TimeClip_ofZ by (unfold maxTime in Hrange; simpl; lia).
  replace (Z.abs tv <=? maxTime) with true by (symmetry; apply Z.leb_le; exact Hrange).
  reflexivity.
Qed.

Lemma format_strict_parse_conforms : conforms_to_format format_strict_parse.
Proof.
  intros s tv Hs. unfold format_strict_parse. rewrite Hs. reflexivity.
Qed.

(** C6, as the code has it.  On an engine that reads the Date Time String
    Format as ECMA-262 defines it, ["2016-01-19T08:07:37Z"] and
    ["2016-01-19T16:07:37+08:00"] parse to the same instant, 1453190857000 ms
    after the epoch; and two strings of the format, in any of its forms,
    whose instants a Date can hold parse to equal dates exactly when their
    local dates and times differ by the difference of their offsets, that is
    when they denote the same absolute time. *)
Theorem parseDataFromIso8601_normalizes_format_offsets
    (Date_parse : string -> float) :
  conforms_to_format Date_parse ->
  parseDataFromIso8601 Date_parse (VString "2016-01-19T08:07:37Z")
    = Normal (ValidDate 1453190857000)
  /\ parseDataFromIso8601 Date_parse (VString "2016-01-19T16:07:37+08:00")
    = Normal (ValidDate 1453190857000)
  /\ (forall s1 s2 local1 offset1 local2 offset2,
        format_fields s1 = Some (local1, offset1) ->
        format_fields s2 = Some (local2, offset2) ->
        Z.abs (local1 - offset1 * msPerMinute) <= maxTime ->
        Z.abs (local2 - offset2 * msPerMinute) <= maxTime ->
        (parseDataFromIso8601 Date_parse (VString s1)
         = parseDataFromIso8601 Date_parse (VString s2)
         <-> local1 - local2 = (offset1 - offset2) * msPerMinute)).
Proof.
  intros Hconf. split; [|split].
  - apply parse_format_string; [exact Hconf|evaluate].
  - apply parse_format_string; [exact Hconf|evaluate].
  - intros s1 s2 local1 offset1 local2 offset2 Hf1 Hf2 Hr1 Hr2.
    rewrite (parse_format_string Date_parse s1 _ Hconf
               (format_instant_of_fields s1 local1 offset1 Hf1 Hr1)).
    rewrite (parse_format_string Date_parse s2 _ Hconf
               (format_instant_of_fields s2 local2 offset2 Hf2 Hr2)).
    split.
    + intros Heq. injection Heq as Heq. lia.
    + intros Heq. do 2 f_equal. lia.
Qed.

(** The engine that recognises the format and nothing else. *)
Lemma parseDataFromIso8601_normalizes_format_offsets_witness :
  parseDataFromIso8601 format_strict_parse (VString "2016-01-19T08:07:37Z")
    = Normal (ValidDate 1453190857000)
  /\ parseDataFromIso8601 format_strict_parse (VString "2016-01-19T16:07:37+08:00")
    = Normal (ValidDate 1453190857000)
  /\ (forall s1 s2 local1 offset1 local2 offset2,
        format_fields s1 = Some (local1, offset1) ->
        format_fields s2 = Some (local2, offset2) ->
        Z.abs (local1 - offset1 * msPerMinute) <= maxTime ->
        Z.abs (local2 - offset2 * msPerMinute) <= maxTime ->
        (parseDataFromIso8601 format_strict_parse (VString s1)
         = parseDataFromIso8601 format_strict_parse (VString s2)
         <-> local1 - local2 = (offset1 - offset2) * msPerMinute)).
Proof.
  apply (parseDataFromIso8601_normalizes_format_offsets format_strict_parse).
  exact format_strict_parse_conforms.
Defined.

(** C6, as it is stated, fails: the function hands the string to the
    engine, which the standard binds on its own format only.  ISO 8601 writes
    16:07:37 at eight hours east of UTC also as ["2016-01-19T16:07:37+08"];
    an engine that follows the standard and recognises nothing more gives the
    invalid date for it, and a valid date for the same instant written with
    [Z]. *)
Lemma iso8601_offsets_not_all_normalized :
  conforms_to_format format_strict_parse
  /\ iso8601_instant "2016-01-19T08:07:37Z" = Some 1453190857000
  /\ iso8601_instant "2016-01-19T16:07:37+08" = Some 1453190857000
  /\ parseDataFromIso8601 format_strict_parse (VString "2016-01-19T08:07:37Z")
     = Normal (ValidDate 1453190857000)
  /\ parseDataFromIso8601 format_strict_parse (VString "2016-01-19T16:07:37+08")
     = Normal InvalidDate
  /\ ~ (forall Date_parse : string -> float,
          conforms_to_format Date_parse ->
          forall s1 s2 tv,
            iso8601_instant s1 = Some tv -> iso8601_instant s2 = Some tv ->
            parseDataFromIso8601 Date_parse (VString s1)
            = parseDataFromIso8601 Date_parse (VString s2)).
Proof.
  assert (Hz : parseDataFromIso8601 format_strict_parse
                 (VString "2016-01-19T08:07:37Z")
               = Normal (ValidDate 1453190857000)) by evaluate.
  assert (Hh : parseDataFromIso8601 format_strict_parse
                 (VString "2016-01-19T16:07:37+08")
               = Normal InvalidDate) by evaluate.
  assert (Iz : iso8601_instant "2016-01-19T08:07:37Z" = Some 1453190857000)
    by evaluate.
  assert (Ih : iso8601_instant "2016-01-19T16:07:37+08" = Some 1453190857000)
    by evaluate.
  repeat split; try assumption.
  - exact format_strict_parse_conforms.
  - intros Hall.
    specialize (Hall format_strict_parse format_strict_parse_conforms _ _ _ Iz Ih).
    rewrite Hz, Hh in Hall. discriminate.
Qed.

(** Forms of the format beyond the longest one. *)
Example format_forms :
  format_instant "2016-01-19T16:07+08:00" = Some 1453190820000
  /\ format_instant "2016-01-19T08:07Z" = Some 1453190820000
  /\ format_instant "+002016-01-19T08:07:37.000Z" = Some 1453190857000
  /\ format_instant "2016-01-18T24:00Z" = format_instant "2016-01-19T00:00Z"
  /\ format_instant "2016T00:00-00:30" = Some 1451608200000
  /\ format_instant "+275760-09-13T00:00:00.001Z" = None
  /\ format_instant "2016-01-19T16:07:37+08" = None.
Proof. repeat split; evaluate. Qed.

Lemma digit_not_sign (c : ascii) (d : Z) :
  Parse.digit c = Some d -> Ascii.eqb c "+" = false /\ Ascii.eqb c "-" = false.
Proof.
  intros Hd. split.
  - destruct (Ascii.eqb_spec c "+") as [->|]; [discriminate|reflexivity].
  - destruct (Ascii.eqb_spec c "-") as [->|]; [discriminate|reflexivity].
Qed.

(** The strings that [iso8601_time] reads are strings of the format in
    full, with the same instant. *)
Lemma iso8601_time_in_format (s : string) (tv : Z) :
  iso8601_time s = Some tv -> format_instant s = Some tv.
Proof.
  intros Hs. pose proof (iso8601_time_range s tv Hs) as Hrange.
  unfold iso8601_time in Hs.
  apply bind_Some in Hs. destruct Hs as ([year s1] & Hyear & H).
  apply bind_Some in H. destruct H as (s2 & Hl1 & H).
  apply bind_Some in H. destruct H as ([month s3] & Hmonth & H).
  apply bind_Some in H. destruct H as (s4 & Hl2 & H).
  apply bind_Some in H. destruct H as ([day s5] & Hday & H).
  apply bind_Some in H. destruct H as (s6 & Hl3 & H).
  apply bind_Some in H. destruct H as ([hour s7] & Hhour & H).
  apply bind_Some in H. destruct H as (s8 & Hl4 & H).
  apply bind_Some in H. destruct H as ([minute s9] & Hminute & H).
  apply bind_Some in H. destruct H as (s10 & Hl5 & H).
  apply bind_Some in H. destruct H as ([second s11] & Hsecond & H).
  apply bind_Some in H. destruct H as ([ms s12] & Hms & H).
  apply bind_Some in H. destruct H as (offset & Hoffset & H).
  apply bind_Some in H. destruct H as (u & Hguard & H).
  injection H as Htv.
  apply guard_Some in Hguard.
  repeat (apply andb_true_iff in Hguard; destruct Hguard as [Hguard ?]).
  assert (Hy : format_year s = Some (year, s1)).
  { destruct s as [|c rest]; [discriminate|].
    assert (Hc : exists d, Parse.digit c = Some d).
    { cbn [Parse.number] in Hyear. destruct (Parse.digit c) as [d|]; [|discriminate].
      exists d. reflexivity. }
    destruct Hc as (d & Hd). destruct (digit_not_sign c d Hd) as [Hplus Hminus].
    unfold format_year. rewrite Hplus, Hminus. exact Hyear. }
  unfold format_instant, format_fields, format_fields_with.
  rewrite Hy. cbn [Parse.bind].
  unfold format_month_or_day at 1. rewrite Hl1, Hmonth. cbn [Parse.bind].
  unfold format_month_or_day. rewrite Hl2, Hday. cbn [Parse.bind].
  rewrite Hl3. cbn [Parse.bind]. rewrite Hhour. cbn [Parse.bind].
  rewrite Hl4. cbn [Parse.bind]. rewrite Hminute. cbn [Parse.bind].
  unfold format_seconds. rewrite Hl5, Hsecond. cbn [Parse.bind].
  rewrite Hms. cbn [Parse.bind]. rewrite Hoffset. cbn [Parse.bind].
  repeat match goal with
         | Hb : _ = true |- _ => rewrite Hb
         end.
  cbn [andb orb Parse.guard Parse.bind instant_of_fields].
  rewrite Htv.
  replace (Z.abs tv <=? maxTime) with true
    by (symmetry; apply Z.leb_le; lia).
  reflexivity.
Qed.

(** An engine that conforms on the format in full conforms on the strings
    of [iso8601_time]. *)
Lemma conforms_to_format_parses (Date_parse : string -> float) :
  conforms_to_format Date_parse -> parses_date_time_format Date_parse.
Proof.
  intros Hconf s tv Hs. apply Hconf, iso8601_time_in_format, Hs.
Qed.
